(** * Eyelid-state classifier: preprocessing, data loading, persistence, decision

    A shallow embedding of the two Python modules of the repository,

      - [RealTime-FaceRecognition/eye_status.py]  ([load_model], [predict])
      - [LivelinessNet_Notebook/ll_utils.py]      ([load_image], [load_data],
                                                   [save_model])

    The modules are glue around PIL, NumPy, SciPy, scikit-image and Keras.
    What the repository itself decides (the order of the calls, the constants,
    the file names, the thresholds) is written out as definitions; what the
    libraries decide (resampling, decoding, serialisation, random numbers, the
    network's forward pass) is taken through interfaces whose laws are stated
    where a theorem needs them, and a small executable reference
    implementation of each interface is given so that every definition can be
    run on concrete inputs.

    Floating-point samples are idealised as rationals: every finite float is a
    rational, and the bounds and thresholds below are unaffected by rounding
    (see [float32_thresholds_agree]). *)

From Stdlib Require Import ZArith QArith Qround Reals Psatz List Ascii String.
From stdpp Require Import gmap strings list.

Open Scope string_scope.

(** ** Python results and exceptions *)

(** An exception is identified by the name of its class. *)
Definition exn := string.

Inductive result (A : Type) : Type :=
| Ok (a : A)
| Raise (e : exn).
Arguments Ok {A} a.
Arguments Raise {A} e.

#[global] Instance result_ret : MRet result := fun A a => Ok a.

#[global] Instance result_bind : MBind result := fun A B k r =>
  match r with
  | Ok a => k a
  | Raise e => Raise e
  end.

Definition succeeds {A} (r : result A) : Prop := exists a, r = Ok a.
Definition raises {A} (r : result A) (e : exn) : Prop := r = Raise e.

(** ** NumPy arrays: a shape and the samples in row-major order *)

Record ndarray (A : Type) : Type := mk_ndarray {
  shape : list nat;
  data  : list A
}.
Arguments mk_ndarray {A} shape data.
Arguments shape {A} _.
Arguments data {A} _.

Definition size_of (s : list nat) : nat := fold_right Nat.mul 1%nat s.

Definition well_shaped {A} (a : ndarray A) : Prop :=
  length (data a) = size_of (shape a).

(** [IMG_SIZE = 24], the constant both modules declare. *)
Definition IMG_SIZE : nat := 24.

(** [a.astype('float32') / 255]: integer samples to floats, scaled. *)
Definition div255 (v : Z) : Q := Qred (inject_Z v / 255).

Definition astype_float32_div255 (a : ndarray Z) : ndarray Q :=
  mk_ndarray (shape a) (map div255 (data a)).

(** [a.reshape(s)]: same samples, new shape; NumPy raises [ValueError] when
    the number of samples does not fit. *)
Definition reshape {A} (a : ndarray A) (s : list nat) : result (ndarray A) :=
  if Nat.eqb (length (data a)) (size_of s)
  then Ok (mk_ndarray s (data a))
  else Raise "ValueError".

(** [np.expand_dims(a, axis=0)]. *)
Definition expand_dims0 {A} (a : ndarray A) : ndarray A :=
  mk_ndarray (1%nat :: shape a) (data a).

Definition uint8 (v : Z) : Prop := (0 <= v <= 255)%Z.
Definition unit_interval (q : Q) : Prop := (0 <= q /\ q <= 1)%Q.

(** An 8-bit grey level held in a float. *)
Definition grey_level (q : Q) : Prop := (0 <= q /\ q <= 255)%Q.

(** ** Decision policy: the tail of [predict]

<<
	if prediction < 0.1:    prediction = 'closed'
	elif prediction > 0.9:  prediction = 'open'
	else:                   prediction = 'idk'
>>
    The policy is written once over any carrier with a strict comparison and
    used at the rationals (executable) and at the reals. *)

Definition threshold_policy {T : Type} (ltb : T -> T -> bool) (lo hi p : T)
  : string :=
  if ltb p lo then "closed"
  else if ltb hi p then "open"
  else "idk".

Definition Qltb (x y : Q) : bool := negb (Qle_bool y x).

Definition Rltb (x y : R) : bool := if Rlt_dec x y then true else false.

Definition predict_label (prediction : Q) : string :=
  threshold_policy Qltb (1 # 10) (9 # 10) prediction.

Definition predict_label_real (prediction : R) : string :=
  threshold_policy Rltb (1 / 10)%R (9 / 10)%R prediction.

(** The comparison as NumPy performs it on a [float32] score: the Python
    literals are rounded to the nearest [float32],
    0.1 to 13421773 / 2^27 and 0.9 to 15099494 / 2^24. *)
Definition f32_0_1 : Q := 13421773 # 134217728.
Definition f32_0_9 : Q := 15099494 # 16777216.

Definition predict_label_f32 (prediction : Q) : string :=
  threshold_policy Qltb f32_0_1 f32_0_9 prediction.

(** The values a [float32] can take: below 1/16 anything (the thresholds are
    far away), from 1/16 to 1/2 multiples of 2^-27, from 1/2 on multiples of
    2^-24. *)
Definition f32_grid (p : Q) : Prop :=
  (p < 1 # 16)%Q \/
  ((p < 1 # 2)%Q /\ exists m : Z, (p == m # 134217728)%Q) \/
  (exists m : Z, (p == m # 16777216)%Q).

(** ** Files *)

(** The file system as the two modules see it: relative path to contents. *)
Abbreviation filesystem := (gmap string string).

(** Python's [open(path)] for reading. *)
Definition py_open_read (fs : filesystem) (path : string) : result string :=
  match fs !! path with
  | Some contents => Ok contents
  | None => Raise "FileNotFoundError"
  end.

(** ** PIL images *)

Record pil_image (px : Type) : Type := mk_image {
  im_height : nat;
  im_width  : nat;
  im_pixels : list px
}.
Arguments mk_image {px} _ _ _.
Arguments im_height {px} _.
Arguments im_width {px} _.
Arguments im_pixels {px} _.

Definition rgb : Type := (Z * Z * Z)%type.

Fixpoint rgb_pixels (bytes : list Z) : list rgb :=
  match bytes with
  | r :: g :: b :: rest => (r, g, b) :: rgb_pixels rest
  | _ => []
  end.

(** [Image.fromarray(img, 'RGB')] on a [uint8] array: the size is
    [(shape[1], shape[0])] and the array's buffer is read as packed RGB
    triples.  More than three axes are refused, and a buffer shorter than
    [3 * width * height] bytes is refused ("not enough image data"); a longer
    one is read up to that length.  (On an empty array the call is let
    through: what happens to an empty image is the resampler's business.) *)
Definition Image_fromarray_RGB (img : ndarray Z) : result (pil_image rgb) :=
  match shape img with
  | h :: w :: more =>
      if (1 <? length more)%nat then Raise "ValueError"
      else if (length (data img) <? 3 * w * h)%nat then Raise "ValueError"
      else Ok (mk_image h w (rgb_pixels (take (3 * w * h) (data img))))
  | _ => Raise "IndexError"
  end.

(** [.convert('L')]: ITU-R 601-2 luma, in PIL's 16-bit fixed point. *)
Definition luma (p : rgb) : Z :=
  let '(r, g, b) := p in
  Z.shiftr (r * 19595 + g * 38470 + b * 7471 + 32768) 16.

Definition convert_L (im : pil_image rgb) : pil_image Z :=
  mk_image (im_height im) (im_width im) (map luma (im_pixels im)).

(** ** The imaging libraries behind the two loaders *)

Class ImagingOps : Type := {
  (** [scipy.misc.imresize(im, (rows, cols))]: PIL's bilinear resize of an
      8-bit image, returned as a [uint8] array of shape [(rows, cols)]. *)
  imresize : pil_image Z -> nat * nat -> result (ndarray Z);
  (** [np.array(Image.open(f))] once the file's bytes are at hand: the decoded
      sample array, or the decoder's exception. *)
  pil_decode : string -> result (ndarray Z);
  (** [skimage.transform.resize(a, output_shape)]. *)
  transform_resize : ndarray Q -> list nat -> result (ndarray Q)
}.

(** A network as Keras holds it, and the library calls on it. *)
Class KerasOps : Type := {
  architecture : Type;
  weights : Type;
  (** [model.predict(x)] on a batch of one image of the shape the network
      was built for, [1, 24, 24, 1]: the score.  (What Keras makes of a
      tensor of another shape is outside this interface.) *)
  forward : architecture -> weights -> ndarray Q -> Q;
  (** [model.to_json()] and [model_from_json(s)]. *)
  to_json : architecture -> string;
  model_from_json : string -> result architecture;
  (** the weights [model_from_json] initialises a new model with. *)
  initial_weights : architecture -> weights;
  (** [model.save_weights(path)] writes these bytes; [model.load_weights(path)]
      reads them back into a model of the given architecture. *)
  weights_to_h5 : architecture -> weights -> string;
  weights_from_h5 : architecture -> string -> result weights
}.

Record compile_args : Type := mk_compile {
  loss : string;
  optimizer : string;
  metrics : list string
}.

Record keras_model `{KerasOps} : Type := mk_model {
  model_arch : architecture;
  model_weights : weights;
  model_compiled : option compile_args
}.
Arguments mk_model {_} _ _ _.

Definition model_predict `{KerasOps} (m : keras_model) (x : ndarray Q) : Q :=
  forward (model_arch m) (model_weights m) x.

(** ** eye_status.py *)

Section EyeStatus.
Context `{ImagingOps} `{KerasOps}.

(** Lines 22-25 of [predict]: the image-to-tensor part. *)
Definition predict_tensor (img : ndarray Z) : result (ndarray Q) :=
  im ← Image_fromarray_RGB img;
  let im := convert_L im in
  a ← imresize im (IMG_SIZE, IMG_SIZE);
  let a := astype_float32_div255 a in
  reshape a [1%nat; IMG_SIZE; IMG_SIZE; 1%nat].

Definition predict (img : ndarray Z) (model : keras_model) : result string :=
  t ← predict_tensor img;
  let prediction := model_predict model t in
  Ok (predict_label prediction).

(** [model.load_weights(path)]: h5py opens the file, which fails like
    Python's [open] when the file is missing, and Keras fills the model from
    its contents. *)
Definition load_weights (fs : filesystem) (m : keras_model) (path : string)
  : result keras_model :=
  match fs !! path with
  | None => Raise "FileNotFoundError"
  | Some blob =>
      w ← weights_from_h5 (model_arch m) blob;
      Ok (mk_model (model_arch m) w (model_compiled m))
  end.

Definition compile (m : keras_model) (c : compile_args) : keras_model :=
  mk_model (model_arch m) (model_weights m) (Some c).

Definition load_model (fs : filesystem) : result keras_model :=
  loaded_model_json ← py_open_read fs "model.json";
  a ← model_from_json loaded_model_json;
  let loaded_model := mk_model a (initial_weights a) None in
  loaded_model ← load_weights fs loaded_model "model.h5";
  Ok (compile loaded_model
        (mk_compile "binary_crossentropy" "adam" ["accuracy"])).
End EyeStatus.

(** ** ll_utils.py: [load_image] and [save_model] *)

Section LlUtils.
Context `{ImagingOps} `{KerasOps}.

(** [Image.open(filename)] followed by [np.array]. *)
Definition Image_open_array (fs : filesystem) (filename : string)
  : result (ndarray Z) :=
  contents ← py_open_read fs filename;
  pil_decode contents.

Definition load_image (fs : filesystem) (filename : string)
  : result (ndarray Q) :=
  np_image ← Image_open_array fs filename;
  let np_image := astype_float32_div255 np_image in
  np_image ← transform_resize np_image [IMG_SIZE; IMG_SIZE; 1%nat];
  Ok (expand_dims0 np_image).

(** [save_model]: the structure to "model.json", then the weights to
    "model.h5". *)
Definition save_model (model : keras_model) (fs : filesystem) : filesystem :=
  let model_json := to_json (model_arch model) in
  let fs := <["model.json" := model_json]> fs in
  <["model.h5" := weights_to_h5 (model_arch model) (model_weights model)]> fs.
End LlUtils.

(** ** ll_utils.py: [load_data]

    The function configures two Keras [ImageDataGenerator]s and asks each for
    a [DirectoryIterator].  The records below hold the keyword arguments as
    the source passes them; the iterator is Keras's: an index generator that
    reseeds NumPy's global generator before every batch, and a loop that
    loads, transforms and standardises each image of the batch. *)

Record ImageDataGenerator : Type := mk_datagen {
  rescale : Q;
  shear_range : Q;
  horizontal_flip : bool
}.

Record flow_args : Type := mk_flow {
  directory : string;
  target_size : nat * nat;
  color_mode : string;
  batch_size : nat;
  class_mode : string;
  shuffle : bool;
  seed : option Z
}.

(** A dataset directory as Keras walks it: the class subdirectories in sorted
    order, each with the contents of its image files in sorted order. *)
Abbreviation class_dirs := (list (list string)).
Abbreviation disk := (gmap string class_dirs).

Class LoaderOps : Type := {
  (** the state of NumPy's global random generator *)
  rng : Type;
  np_random_seed : Z -> rng;
  np_random_permutation : nat -> rng -> list nat * rng;
  np_random_uniform : Q -> Q -> rng -> Q * rng;
  np_random_random : rng -> Q * rng;
  (** [img_to_array(load_img(path, grayscale, target_size))] *)
  load_img : string -> string -> nat * nat -> result (ndarray Q);
  (** [apply_transform] with a shear matrix, and [flip_axis] on the columns *)
  apply_shear : Q -> ndarray Q -> ndarray Q;
  flip_axis : ndarray Q -> ndarray Q
}.

Record DirectoryIterator : Type := mk_iter {
  it_generator : ImageDataGenerator;
  it_args : flow_args;
  (** [filenames] and [classes], side by side *)
  it_samples : list (string * nat);
  batch_index : nat;
  total_batches_seen : nat;
  index_array : list nat
}.

(** One batch: the images and their labels. *)
Abbreviation batch := (list (ndarray Q) * list Q)%type.

Definition list_samples (classes : class_dirs) : list (string * nat) :=
  mjoin (imap (fun k files => map (fun f => (f, k)) files) classes).

Section LoadData.
Context `{LoaderOps}.

(** [ImageDataGenerator.random_transform]: the shear is drawn first, then
    the coin for the flip. *)
Definition random_transform (gen : ImageDataGenerator) (x : ndarray Q)
  (g : rng) : ndarray Q * rng :=
  let '(shear, g) :=
    if Qeq_bool (shear_range gen) 0 then (0%Q, g)
    else np_random_uniform (- shear_range gen) (shear_range gen) g in
  let x := if Qeq_bool shear 0 then x else apply_shear shear x in
  if horizontal_flip gen then
    let '(u, g) := np_random_random g in
    (if Qltb u (1 # 2) then flip_axis x else x, g)
  else (x, g).

(** [ImageDataGenerator.standardize]: [x *= rescale]. *)
Definition standardize (gen : ImageDataGenerator) (x : ndarray Q)
  : ndarray Q :=
  if Qeq_bool (rescale gen) 0 then x
  else mk_ndarray (shape x) (map (fun v => Qred (v * rescale gen)) (data x)).

(** [Iterator._flow_index], one turn of its loop. *)
Definition flow_index (it : DirectoryIterator) (g : rng)
  : list nat * DirectoryIterator * rng :=
  let n := length (it_samples it) in
  let bs := batch_size (it_args it) in
  let g := match seed (it_args it) with
           | Some s => np_random_seed (s + Z.of_nat (total_batches_seen it))
           | None => g
           end in
  let '(index_array, g) :=
    if Nat.eqb (batch_index it) 0 then
      if shuffle (it_args it) then np_random_permutation n g
      else (seq 0 n, g)
    else (index_array it, g) in
  let current_index :=
    if Nat.eqb n 0 then 0%nat else ((batch_index it * bs) mod n)%nat in
  let batch_index' :=
    if (current_index + bs <? n)%nat then S (batch_index it) else 0%nat in
  (take bs (drop current_index index_array),
   mk_iter (it_generator it) (it_args it) (it_samples it)
           batch_index' (S (total_batches_seen it)) index_array,
   g).

(** [DirectoryIterator._get_batches_of_transformed_samples]. *)
Fixpoint transformed_samples (it : DirectoryIterator) (indices : list nat)
  (g : rng) : result (batch * rng) :=
  match indices with
  | [] => Ok (([], []), g)
  | j :: rest =>
      match it_samples it !! j with
      | None => Raise "IndexError"
      | Some (fname, cls) =>
          x ← load_img fname (color_mode (it_args it))
                (target_size (it_args it));
          let '(x, g) := random_transform (it_generator it) x g in
          let x := standardize (it_generator it) x in
          r ← transformed_samples it rest g;
          let '((xs, ys), g) := r in
          Ok ((x :: xs, inject_Z (Z.of_nat cls) :: ys), g)
      end
  end.

(** [next(generator)]. *)
Definition next (it : DirectoryIterator) (g : rng)
  : result (batch * DirectoryIterator * rng) :=
  let '(indices, it', g) := flow_index it g in
  r ← transformed_samples it indices g;
  Ok (fst r, it', snd r).

(** [flow_from_directory]: list the directory, start at batch 0. *)
Definition flow_from_directory (d : disk) (gen : ImageDataGenerator)
  (args : flow_args) : result DirectoryIterator :=
  match d !! directory args with
  | None => Raise "FileNotFoundError"
  | Some classes => Ok (mk_iter gen args (list_samples classes) 0 0 [])
  end.

Definition train_datagen : ImageDataGenerator :=
  mk_datagen (1 / 255) (2 # 10) true.

Definition val_datagen : ImageDataGenerator :=
  mk_datagen (1 / 255) (2 # 10) true.

Definition train_flow : flow_args :=
  mk_flow "dataset/train" (IMG_SIZE, IMG_SIZE) "grayscale" 32 "binary"
          true (Some 42%Z).

Definition val_flow : flow_args :=
  mk_flow "dataset/val" (IMG_SIZE, IMG_SIZE) "grayscale" 32 "binary"
          true (Some 42%Z).

Definition load_data (d : disk)
  : result (DirectoryIterator * DirectoryIterator) :=
  train_generator ← flow_from_directory d train_datagen train_flow;
  val_generator ← flow_from_directory d val_datagen val_flow;
  Ok (train_generator, val_generator).

(** The first [k] batches of an iterator, when NumPy's global generator is
    in state [ambient i] just before the [i]-th call (other code, or the
    other iterator, may have used it in between). *)
Fixpoint batches (k : nat) (ambient : nat -> rng) (it : DirectoryIterator)
  : result (list batch) :=
  match k with
  | O => Ok []
  | S k' =>
      r ← next it (ambient 0%nat);
      let '(b, it', _) := r in
      bs ← batches k' (fun i => ambient (S i)) it';
      Ok (b :: bs)
  end.

(** The states an iterator passes through. *)
Inductive reachable (it0 : DirectoryIterator) : DirectoryIterator -> Prop :=
| reach_start : reachable it0 it0
| reach_next it g b it' g' :
    reachable it0 it -> next it g = Ok (b, it', g') -> reachable it0 it'.
End LoadData.

(** ** The specification's [prepare], step by step in its own words

    1. grayscale (luminance when the source has several channels),
    2. resize to 24 x 24, 3. divide by 255, 4. reshape to [1,24,24,1]. *)

Definition spec_grayscale (image : ndarray Z) : result (pil_image Z) :=
  match shape image with
  | [h; w] => Ok (mk_image h w (data image))
  | [h; w; 3%nat] => Ok (mk_image h w (map luma (rgb_pixels (data image))))
  | _ => Raise "DecodeError"
  end.

Definition spec_prepare `{ImagingOps} (image : ndarray Z)
  : result (ndarray Q) :=
  gray ← spec_grayscale image;
  resized ← imresize gray (IMG_SIZE, IMG_SIZE);
  let normalized := astype_float32_div255 resized in
  reshape normalized [1%nat; IMG_SIZE; IMG_SIZE; 1%nat].

(** ** What counts as a well-formed input *)

(** An [H x W x 3] array of bytes, as the face pipeline hands to [predict]. *)
Definition rgb_array (img : ndarray Z) : Prop :=
  exists h w : nat,
    shape img = [h; w; 3%nat] /\ (0 < h)%nat /\ (0 < w)%nat /\
    length (data img) = (3 * w * h)%nat /\ Forall uint8 (data img).

(** A decoded 8-bit image: two axes, or three with the channels last. *)
Definition decoded_image (a : ndarray Z) : Prop :=
  (exists h w : nat,
      shape a = [h; w] /\ (0 < h)%nat /\ (0 < w)%nat /\
      length (data a) = (h * w)%nat) \/
  (exists h w c : nat,
      shape a = [h; w; c] /\ (0 < h)%nat /\ (0 < w)%nat /\ (0 < c)%nat /\
      length (data a) = (h * w * c)%nat).

(** The tensor [1, 24, 24, 1] holding the samples [g], each divided by 255. *)
Definition scaled_tensor (g : list Z) : ndarray Q :=
  mk_ndarray [1%nat; IMG_SIZE; IMG_SIZE; 1%nat] (map div255 g).

(** A three-channel image given pixel by pixel: the samples with the
    channels last, a function applied to every channel, and the pixel with
    its first and last channel exchanged. *)
Definition interleave {A} (px : list (A * A * A)) : list A :=
  px ≫= (fun p => [p.1.1; p.1.2; p.2]).

Definition map_channels {A B} (f : A -> B) (p : A * A * A) : B * B * B :=
  (f p.1.1, f p.1.2, f p.2).

Definition swap_rb {A} (p : A * A * A) : A * A * A := (p.2, p.1.2, p.1.1).

Definition rgb_image (h w : nat) (px : list rgb) : ndarray Z :=
  mk_ndarray [h; w; 3%nat] (interleave px).

(** ** The laws of the libraries the theorems rely on *)

Section Laws.
Context `{ImagingOps} `{KerasOps} `{LoaderOps}.

(** PIL resamples any non-empty 8-bit image to the size asked for, and the
    result is an 8-bit image again. *)
Definition imresize_total : Prop :=
  forall (im : pil_image Z) (rows cols : nat),
    (0 < im_height im)%nat -> (0 < im_width im)%nat ->
    length (im_pixels im) = (im_height im * im_width im)%nat ->
    Forall uint8 (im_pixels im) ->
    (0 < rows)%nat -> (0 < cols)%nat ->
    exists a, imresize im (rows, cols) = Ok a /\
              shape a = [rows; cols] /\
              length (data a) = (rows * cols)%nat /\
              Forall uint8 (data a).

(** Resizing to the size the image already has copies it. *)
Definition imresize_same_size : Prop :=
  forall (h w : nat) (px : list Z),
    (0 < h)%nat -> (0 < w)%nat -> length px = (h * w)%nat ->
    imresize (mk_image h w px) (h, w) = Ok (mk_ndarray [h; w] px).

(** scikit-image resamples a non-empty array of two or three axes to the
    three-axis shape asked for; interpolation (with clipping) keeps samples
    of the unit interval in the unit interval. *)
Definition transform_resize_total : Prop :=
  forall (a : ndarray Q) (r c k : nat),
    (exists h w, shape a = [h; w] /\ (0 < h)%nat /\ (0 < w)%nat /\
                 length (data a) = (h * w)%nat) \/
    (exists h w ch, shape a = [h; w; ch] /\ (0 < h)%nat /\ (0 < w)%nat /\
                    (0 < ch)%nat /\ length (data a) = (h * w * ch)%nat) ->
    (0 < r)%nat -> (0 < c)%nat -> (0 < k)%nat ->
    exists b, transform_resize a [r; c; k] = Ok b /\
              shape b = [r; c; k] /\
              length (data b) = (r * c * k)%nat /\
              (Forall unit_interval (data a) ->
               Forall unit_interval (data b)).

(** With the spatial size unchanged, a single-channel image is copied. *)
Definition transform_resize_same_size : Prop :=
  forall (h w : nat) (g : list Q),
    (0 < h)%nat -> (0 < w)%nat -> length g = (h * w)%nat ->
    transform_resize (mk_ndarray [h; w] g) [h; w; 1%nat]
    = Ok (mk_ndarray [h; w; 1%nat] g).

(** The collapse of three channels to one treats the channel axis
    symmetrically.  The output sample sits at the middle channel; without
    anti-aliasing it is that channel, with anti-aliasing (the default from
    scikit-image 0.15 on) the channels are first smoothed with a Gaussian
    kernel, which is symmetric, over borders that are mirrored.  Either way
    the first and the last channel enter with the same weight, so exchanging
    them changes nothing. *)
Definition transform_resize_channel_symmetric : Prop :=
  forall (h w r c : nat) (px : list (Q * Q * Q)),
    length px = (h * w)%nat ->
    transform_resize (mk_ndarray [h; w; 3%nat] (interleave (map swap_rb px)))
                     [r; c; 1%nat]
    = transform_resize (mk_ndarray [h; w; 3%nat] (interleave px))
                       [r; c; 1%nat].

(** Keras reads back what it wrote. *)
Definition json_roundtrip : Prop :=
  forall a, model_from_json (to_json a) = Ok a.

Definition h5_roundtrip : Prop :=
  forall a w, weights_from_h5 a (weights_to_h5 a w) = Ok w.

(** [np.random.permutation(n)] permutes [0 .. n-1]; [np.random.uniform]
    stays within its bounds. *)
Definition permutation_law : Prop :=
  forall n g, Permutation (fst (np_random_permutation n g)) (seq 0 n).

Definition uniform_law : Prop :=
  forall lo hi g,
    (lo <= hi)%Q ->
    (lo <= fst (np_random_uniform lo hi g) /\
     fst (np_random_uniform lo hi g) <= hi)%Q.

(** [load_img] in grayscale mode at a target size, through [img_to_array]:
    one channel of that size, holding grey levels 0 .. 255 as floats. *)
Definition load_img_law : Prop :=
  forall (fname : string) (size : nat * nat) (x : ndarray Q),
    load_img fname "grayscale" size = Ok x ->
    shape x = [size.1; size.2; 1%nat] /\ Forall grey_level (data x).

(** The shear and the flip keep the shape, and produce no sample outside the
    range of those they read (the shear fills from the nearest edge). *)
Definition shear_law : Prop :=
  forall (s : Q) (x : ndarray Q),
    shape (apply_shear s x) = shape x /\
    (Forall grey_level (data x) -> Forall grey_level (data (apply_shear s x))).

Definition flip_law : Prop :=
  forall x : ndarray Q,
    shape (flip_axis x) = shape x /\
    (Forall grey_level (data x) -> Forall grey_level (data (flip_axis x))).
End Laws.

(** ** Reference implementations of the library interfaces

    Small executable stand-ins, used to run the definitions above on concrete
    inputs.  Resampling is by nearest neighbour with pixel centres aligned
    (the target sample [i] of [m] reads source sample
    [floor ((i + 1/2) * n / m)] of [n]).  Where scikit-image collapses the
    three channels of an RGB image to one, the stand-in does what the
    library's anti-aliasing does there: the output sample sits at the middle
    channel of the channels smoothed by a Gaussian kernel (sigma 1, borders
    mirrored), which weighs the middle channel with 0.5072 and each of the
    other two with 0.2464 (the kernel's weights, to four decimals).  Any
    other number of channels is sampled like the rows and the columns. *)

Definition nearest (i n m : nat) : nat := ((2 * i + 1) * n / (2 * m))%nat.

Definition gather {A} (d : A) (src : list A) (index : nat -> nat) (n : nat)
  : list A :=
  map (fun idx => nth (index idx) src d) (seq 0 n).

Definition ref_imresize (im : pil_image Z) (size : nat * nat)
  : result (ndarray Z) :=
  let '(rows, cols) := size in
  let h := im_height im in
  let w := im_width im in
  if Nat.eqb h 0 || Nat.eqb w 0 || Nat.eqb rows 0 || Nat.eqb cols 0
  then Raise "ValueError"
  else Ok (mk_ndarray [rows; cols]
             (gather 0%Z (im_pixels im)
                (fun idx => nearest (idx / cols) h rows * w
                            + nearest (idx mod cols) w cols)%nat
                (rows * cols))).

Definition channel_side : Q := 154 # 625.
Definition channel_middle : Q := 317 # 625.

(** The smoothed middle channel of the pixel whose first sample is [src[p]]. *)
Definition smooth_channels (src : list Q) (p : nat) : Q :=
  Qred (channel_side * nth p src 0%Q + channel_middle * nth (p + 1) src 0%Q
        + channel_side * nth (p + 2) src 0%Q).

Definition ref_resample (h w ch : nat) (src : list Q) (r c k : nat)
  : result (ndarray Q) :=
  if Nat.eqb h 0 || Nat.eqb w 0 || Nat.eqb ch 0
     || Nat.eqb r 0 || Nat.eqb c 0 || Nat.eqb k 0
  then Raise "ValueError"
  else if Nat.eqb ch 3 && Nat.eqb k 1
  then Ok (mk_ndarray [r; c; k]
             (map (fun idx => smooth_channels src
                                ((nearest (idx / c) h r * w
                                  + nearest (idx mod c) w c) * 3)%nat)
                  (seq 0 (r * c * k))))
  else Ok (mk_ndarray [r; c; k]
             (gather 0%Q src
                (fun idx => (nearest (idx / (c * k)) h r * w
                             + nearest ((idx / k) mod c) w c) * ch
                            + nearest (idx mod k) ch k)%nat
                (r * c * k))).

Definition ref_transform_resize (a : ndarray Q) (output_shape : list nat)
  : result (ndarray Q) :=
  match shape a, output_shape with
  | [h; w], [r; c; k] => ref_resample h w 1 (data a) r c k
  | [h; w; ch], [r; c; k] => ref_resample h w ch (data a) r c k
  | _, _ => Raise "ValueError"
  end.

Definition bytes_of (s : string) : list Z :=
  map (fun a => Z.of_N (Ascii.N_of_ascii a)) (list_ascii_of_string s).

Definition string_of_bytes (l : list Z) : string :=
  string_of_list_ascii (map (fun v => Ascii.ascii_of_N (Z.to_N v)) l).

(** A raw container standing in for the image formats PIL reads: three
    header bytes (height, width, channels; 0 channels for a two-axis image)
    and then the samples. *)
Definition ref_pil_decode (contents : string) : result (ndarray Z) :=
  match bytes_of contents with
  | h :: w :: c :: samples =>
      let h := Z.to_nat h in
      let w := Z.to_nat w in
      let c := Z.to_nat c in
      if Nat.eqb h 0 || Nat.eqb w 0 then Raise "OSError"
      else if Nat.eqb c 0 then
        if Nat.eqb (length samples) (h * w)
        then Ok (mk_ndarray [h; w] samples) else Raise "OSError"
      else
        if Nat.eqb (length samples) (h * w * c)
        then Ok (mk_ndarray [h; w; c] samples) else Raise "OSError"
  | _ => Raise "OSError"
  end.

Definition ref_encode (a : ndarray Z) : string :=
  match shape a with
  | [h; w] => string_of_bytes (Z.of_nat h :: Z.of_nat w :: 0%Z :: data a)
  | [h; w; c] =>
      string_of_bytes (Z.of_nat h :: Z.of_nat w :: Z.of_nat c :: data a)
  | _ => ""
  end.

Definition ref_imaging : ImagingOps := {|
  imresize := ref_imresize;
  pil_decode := ref_pil_decode;
  transform_resize := ref_transform_resize
|}.

(** A one-neuron "network": the architecture is its JSON text, the weights
    are bytes, the score is the weighted mean of the input clipped to [0,1].
    The weight file carries a four-byte signature, then the architecture the
    weights were saved for (Keras stores the layers' names and shapes with
    the weights), then the weights.  A file without the signature is
    refused by h5py ([OSError]), weights saved for another architecture by
    Keras ([ValueError]). *)
Definition clip01 (q : Q) : Q :=
  if Qle_bool q 0 then 0%Q else if Qle_bool 1 q then 1%Q else Qred q.

Fixpoint dot (ws : list Z) (xs : list Q) : Q :=
  match ws, xs with
  | w :: ws', x :: xs' => (inject_Z w * x + dot ws' xs')%Q
  | _, _ => 0%Q
  end.

Definition ref_forward (a : string) (w : string) (x : ndarray Q) : Q :=
  clip01 (dot (bytes_of w) (data x) / inject_Z (Z.of_nat (S (length (data x))))).

Definition h5_signature : string := "HDF5".

Fixpoint strip_prefix (p s : string) : option string :=
  match p, s with
  | EmptyString, _ => Some s
  | String a p', String b s' =>
      if Ascii.eqb a b then strip_prefix p' s' else None
  | _, _ => None
  end.

Definition ref_to_json (a : string) : string := String "{"%char a.

Definition ref_model_from_json (s : string) : result string :=
  match s with
  | String "{"%char a => Ok a
  | _ => Raise "JSONDecodeError"
  end.

Definition ref_weights_to_h5 (a : string) (w : string) : string :=
  h5_signature +:+ a +:+ ";" +:+ w.

Definition ref_weights_from_h5 (a : string) (blob : string) : result string :=
  match strip_prefix h5_signature blob with
  | None => Raise "OSError"
  | Some body =>
      match strip_prefix (a +:+ ";") body with
      | Some w => Ok w
      | None => Raise "ValueError"
      end
  end.

Definition ref_keras : KerasOps := {|
  architecture := string;
  weights := string;
  forward := ref_forward;
  to_json := ref_to_json;
  model_from_json := ref_model_from_json;
  initial_weights := fun _ => "";
  weights_to_h5 := ref_weights_to_h5;
  weights_from_h5 := ref_weights_from_h5
|}.

(** NumPy's generator as a linear congruential generator; a permutation is a
    rotation, a uniform draw a point of a 1000-step grid. *)
Definition lcg (g : Z) : Z := ((g * 1103515245 + 12345) mod 2147483648)%Z.

Definition unit_draw (g : Z) : Q := (g mod 1000)%Z # 1000.

Definition ref_permutation (n : nat) (g : Z) : list nat * Z :=
  let k := Z.to_nat (g mod Z.of_nat (S n)) in
  (app (drop k (seq 0 n)) (take k (seq 0 n)), lcg g).

Definition ref_uniform (lo hi : Q) (g : Z) : Q * Z :=
  (Qred (lo + (hi - lo) * unit_draw g), lcg g).

(** Every file decodes to the image whose samples are the file's bytes,
    repeated to fill the target size; an empty file is refused. *)
Definition ref_load_img (contents : string) (mode : string) (size : nat * nat)
  : result (ndarray Q) :=
  let bytes := bytes_of contents in
  let '(rows, cols) := size in
  if Nat.eqb (length bytes) 0 then Raise "OSError"
  else Ok (mk_ndarray [rows; cols; 1%nat]
             (gather 0%Q (map inject_Z bytes)
                (fun idx => idx mod length bytes)%nat (rows * cols))).

Definition clamp (lo hi v : Z) : Z := Z.max lo (Z.min hi v).

Definition remap_columns (x : ndarray Q) (col : nat -> nat -> nat -> nat)
  : ndarray Q :=
  match shape x with
  | [rows; cols; 1%nat] =>
      mk_ndarray (shape x)
        (gather 0%Q (data x)
           (fun idx => (idx / cols) * cols + col cols (idx / cols) (idx mod cols))%nat
           (rows * cols))
  | _ => x
  end.

Definition ref_apply_shear (s : Q) (x : ndarray Q) : ndarray Q :=
  remap_columns x (fun cols i j =>
    Z.to_nat (clamp 0 (Z.of_nat cols - 1)
                (Z.of_nat j + Qfloor (s * inject_Z (Z.of_nat i))))).

Definition ref_flip_axis (x : ndarray Q) : ndarray Q :=
  remap_columns x (fun cols _ j => (cols - 1 - j)%nat).

Definition ref_loader : LoaderOps := {|
  rng := Z;
  np_random_seed := fun s => s;
  np_random_permutation := ref_permutation;
  np_random_uniform := ref_uniform;
  np_random_random := fun g => (unit_draw g, lcg g);
  load_img := ref_load_img;
  apply_shear := ref_apply_shear;
  flip_axis := ref_flip_axis
|}.

(** ** Sample inputs *)

Definition solid_rgb (h w : nat) (r g b : Z) : ndarray Z :=
  mk_ndarray [h; w; 3%nat] (mjoin (replicate (h * w) [r; g; b])).

(** A 24 x 24 crop that is pure blue, the same crop with the first and the
    last channel exchanged (pure red), and the two as files. *)
Definition blue_eye : ndarray Z := solid_rgb 24 24 0 0 255.
Definition blue_pixels : list rgb := replicate 576 (0, 0, 255)%Z.
Definition red_eye : ndarray Z := rgb_image 24 24 (map swap_rb blue_pixels).
Definition colour_files : filesystem :=
  {[ "blue.png" := ref_encode blue_eye; "red.png" := ref_encode red_eye ]}.

(** A 2 x 3 colour image and a 2 x 2 single-channel array. *)
Definition small_rgb : ndarray Z := solid_rgb 2 3 200 100 50.
Definition small_rgb_files : filesystem :=
  {[ "eye.png" := ref_encode small_rgb ]}.
Definition gray_2x2 : ndarray Z := mk_ndarray [2%nat; 2%nat] [10; 20; 30; 40]%Z.

(** A trained model of the reference network, and an input tensor. *)
Definition sample_model : @keras_model ref_keras :=
  @mk_model ref_keras "dense(1)" "abc" None.
Definition sample_tensor : ndarray Q := scaled_tensor (replicate 576 51%Z).

(** Dataset directories: three images in two classes; forty in two classes. *)
Definition small_disk : disk :=
  {[ "dataset/train" := [["a"; "b"]; ["c"]];
     "dataset/val" := [["d"]; ["e"]] ]}.
Definition forty_disk : disk :=
  {[ "dataset/train" := [replicate 20 "o"; replicate 20 "c"];
     "dataset/val" := [replicate 20 "o"; replicate 20 "c"] ]}.

(** A file that is not an image. *)
Definition junk_files : filesystem := {[ "eye.png" := "junk" ]}.

(** A boolean test for bytes. *)
Definition uint8b (v : Z) : bool := (0 <=? v)%Z && (v <=? 255)%Z.

(** Artifacts on disk: none; the structure only; the structure and a
    truncated weight file; the structure and the weights of another
    architecture; a structure file that is not JSON. *)
Definition structure_only : filesystem := {[ "model.json" := "{dense(1)" ]}.
Definition truncated_weights : filesystem :=
  {[ "model.json" := "{dense(1)"; "model.h5" := "HD" ]}.
Definition mismatched_weights : filesystem :=
  {[ "model.json" := "{dense(1)";
     "model.h5" := ref_weights_to_h5 "dense(2)" "xyz" ]}.
Definition broken_structure : filesystem :=
  {[ "model.json" := "dense(1)";
     "model.h5" := ref_weights_to_h5 "dense(1)" "abc" ]}.

(** The keyword arguments of a flow, and an iterator, with the directory
    replaced. *)
Definition with_directory (dir : string) (a : flow_args) : flow_args :=
  mk_flow dir (target_size a) (color_mode a) (batch_size a) (class_mode a)
          (shuffle a) (seed a).

Definition iter_with_directory (dir : string) (it : DirectoryIterator)
  : DirectoryIterator :=
  mk_iter (it_generator it) (with_directory dir (it_args it)) (it_samples it)
          (batch_index it) (total_batches_seen it) (index_array it).

(** The transformation one image of a batch has gone through, when NumPy's
    generator is in state [g] as its turn comes: the file is loaded as
    grayscale at 24 x 24; a shear is drawn from [-0.2, 0.2] and applied; then
    a number of [0, 1) is drawn, for this image alone, and the image is
    flipped when it is below 1/2; the samples are multiplied by 1/255, which
    takes the grey levels to [0, 1].  The generator is left in state [g']. *)
Definition augmented_image `{LoaderOps} (fname : string) (g : rng)
  (x : ndarray Q) (g' : rng) : Prop :=
  exists x0 : ndarray Q,
    load_img fname "grayscale" (IMG_SIZE, IMG_SIZE) = Ok x0 /\
    let shear_draw := np_random_uniform (- (2 # 10)) (2 # 10) g in
    let flip_draw := np_random_random shear_draw.2 in
    let sheared :=
      if Qeq_bool shear_draw.1 0 then x0 else apply_shear shear_draw.1 x0 in
    let flipped :=
      if Qltb flip_draw.1 (1 # 2) then flip_axis sheared else sheared in
    (- (2 # 10) <= shear_draw.1)%Q /\ (shear_draw.1 <= 2 # 10)%Q /\
    x = mk_ndarray (shape flipped)
          (map (fun v => Qred (v * (1 / 255))) (data flipped)) /\
    g' = flip_draw.2 /\
    shape x = [IMG_SIZE; IMG_SIZE; 1%nat] /\
    Forall unit_interval (data x).

(** What a batch holds, image by image: the [i]-th image is the augmented
    file of the [i]-th index, with draws of its own (the generator is passed
    on from one image to the next), and the [i]-th label is the index of that
    file's class directory. *)
Fixpoint batch_holds `{LoaderOps} (samples : list (string * nat))
  (indices : list nat) (g : rng) (xs : list (ndarray Q)) (ys : list Q)
  (g' : rng) : Prop :=
  match indices, xs, ys with
  | [], [], [] => g' = g
  | j :: indices, x :: xs, y :: ys =>
      exists (fname : string) (cls : nat) (g1 : rng),
        samples !! j = Some (fname, cls) /\
        augmented_image fname g x g1 /\
        y = inject_Z (Z.of_nat cls) /\
        batch_holds samples indices g1 xs ys g'
  | _, _, _ => False
  end.

(** The iterators [load_data] returns on the sample directories. *)
Definition small_train : DirectoryIterator :=
  mk_iter train_datagen train_flow (list_samples [["a"; "b"]; ["c"]]) 0 0 [].
Definition small_val : DirectoryIterator :=
  mk_iter val_datagen val_flow (list_samples [["d"]; ["e"]]) 0 0 [].
Definition forty_train : DirectoryIterator :=
  mk_iter train_datagen train_flow
          (list_samples [replicate 20 "o"; replicate 20 "c"]) 0 0 [].
Definition forty_val : DirectoryIterator :=
  mk_iter val_datagen val_flow
          (list_samples [replicate 20 "o"; replicate 20 "c"]) 0 0 [].

(** The sizes of the first [k] batches. *)
Definition batch_sizes `{LoaderOps} (k : nat) (ambient : nat -> rng)
  (it : DirectoryIterator) : option (list nat) :=
  match batches k ambient it with
  | Ok bs => Some (map (fun b : batch => length (fst b)) bs)
  | Raise _ => None
  end.

(** What holds of an iterator in every state it passes through: its
    configuration and file list never change, and inside a pass over the data
    the index array is a permutation of the sample indices with the next
    batch starting inside it. *)
Definition iterator_invariant (it0 it : DirectoryIterator) : Prop :=
  it_generator it = it_generator it0 /\
  it_args it = it_args it0 /\
  it_samples it = it_samples it0 /\
  (batch_index it = 0%nat \/
   ((batch_index it * batch_size (it_args it0) < length (it_samples it0))%nat /\
    Permutation (index_array it) (seq 0 (length (it_samples it0))))).

(** ** Further notions used by the additional properties *)

(** The three answers of [predict], from the most closed to the most open. *)
Definition label_rank (label : string) : nat :=
  if String.eqb label "closed" then 0
  else if String.eqb label "idk" then 1
  else 2.

(** The values of IEEE single precision, subnormals included: [m / 2^k] with
    [k <= 149], or [m * 2^k], for a 24-bit [m] of either sign. *)
Definition is_float32 (p : Q) : Prop :=
  exists (m : Z) (k : nat),
    (Z.abs m < 2 ^ 24)%Z /\
    (((k <= 149)%nat /\ (p == m # Z.to_pos (2 ^ Z.of_nat k))%Q) \/
     (p == inject_Z (m * 2 ^ Z.of_nat k))%Q).

(** The tensor [1, 24, 24, 1] that holds [v] everywhere. *)
Definition constant_tensor (v : Q) : ndarray Q :=
  mk_ndarray [1%nat; IMG_SIZE; IMG_SIZE; 1%nat] (replicate 576 v).

(** PIL's resize of a uniformly coloured 8-bit image is uniformly coloured:
    the filter coefficients of every output sample sum to one. *)
Definition imresize_constant `{ImagingOps} : Prop :=
  forall (h w rows cols : nat) (v : Z),
    (0 < h)%nat -> (0 < w)%nat -> (0 < rows)%nat -> (0 < cols)%nat ->
    uint8 v ->
    imresize (mk_image h w (replicate (h * w) v)) (rows, cols)
    = Ok (mk_ndarray [rows; cols] (replicate (rows * cols) v)).

(** The label Keras gives the [j]-th sample: its class index, as a float. *)
Definition label_at (samples : list (string * nat)) (j : nat) : Q :=
  match samples !! j with
  | Some (_, cls) => inject_Z (Z.of_nat cls)
  | None => 0%Q
  end.

Definition sample_label (s : string * nat) : Q := inject_Z (Z.of_nat s.2).

(** The index array [_flow_index] works with in the coming turn: a fresh
    permutation at the start of a pass, the stored one inside a pass. *)
Definition pass_order `{LoaderOps} (it : DirectoryIterator) (g : rng)
  : list nat :=
  let n := length (it_samples it) in
  let g := match seed (it_args it) with
           | Some s => np_random_seed (s + Z.of_nat (total_batches_seen it))
           | None => g
           end in
  if Nat.eqb (batch_index it) 0 then
    if shuffle (it_args it) then fst (np_random_permutation n g)
    else seq 0 n
  else index_array it.

(** [Iterator.__len__]: the number of batches of one pass over [n] samples. *)
Definition steps_per_pass (n bs : nat) : nat := ((n + bs - 1) / bs)%nat.

(** The iterator after [k] calls of [next]. *)
Fixpoint advance `{LoaderOps} (k : nat) (ambient : nat -> rng)
  (it : DirectoryIterator) : result DirectoryIterator :=
  match k with
  | O => Ok it
  | S k' =>
      r ← next it (ambient 0%nat);
      let '(_, it', _) := r in
      advance k' (fun i => ambient (S i)) it'
  end.

(** More sample inputs: a 1 x 2 RGBA array, a 16-bit single-channel file, a
    second model, directories without images, and seventy images. *)
Definition rgba_1x2 : ndarray Z :=
  mk_ndarray [1%nat; 2%nat; 4%nat] [10; 20; 30; 255; 40; 50; 60; 255]%Z.

Definition deep_eye : ndarray Z :=
  mk_ndarray [24%nat; 24%nat] (replicate 576 200%Z).
Definition deep_eye_files : filesystem :=
  {[ "eye.png" := ref_encode deep_eye ]}.

Definition other_model : @keras_model ref_keras :=
  @mk_model ref_keras "dense(2)" "xyz" None.

Definition notes_files : filesystem := {[ "notes.txt" := "keep" ]}.

Definition empty_disk : disk :=
  {[ "dataset/train" := []; "dataset/val" := [[]; []] ]}.
Definition empty_train : DirectoryIterator :=
  mk_iter train_datagen train_flow (list_samples []) 0 0 [].
Definition empty_val : DirectoryIterator :=
  mk_iter val_datagen val_flow (list_samples [[]; []]) 0 0 [].
Definition train_only_disk : disk := {[ "dataset/train" := [["a"]; ["b"]] ]}.

(** * Theorems *)

(** ** The decision policy *)

Lemma Qltb_lt (x y : Q) : Qltb x y = true <-> (x < y)%Q.
Proof.
  unfold Qltb. rewrite negb_true_iff.
  split.
  - intros Hle. apply Qnot_le_lt. intros Hyx.
    apply Qle_bool_iff in Hyx. congruence.
  - intros Hlt. destruct (Qle_bool y x) eqn:E; [|reflexivity].
    apply Qle_bool_iff in E. exfalso. apply (Qlt_not_le _ _ Hlt E).
Qed.

Lemma Qltb_ge (x y : Q) : Qltb x y = false <-> (y <= x)%Q.
Proof.
  unfold Qltb. rewrite negb_false_iff. apply Qle_bool_iff.
Qed.

Lemma Rltb_lt (x y : R) : Rltb x y = true <-> (x < y)%R.
Proof. unfold Rltb. destruct (Rlt_dec x y); split; auto; discriminate. Qed.

Lemma Rltb_ge (x y : R) : Rltb x y = false <-> (y <= x)%R.
Proof.
  unfold Rltb. destruct (Rlt_dec x y); split; auto; try discriminate; lra.
Qed.

Lemma predict_label_cases (p : Q) :
  ((p < 1 # 10)%Q /\ predict_label p = "closed") \/
  ((9 # 10 < p)%Q /\ predict_label p = "open") \/
  ((1 # 10 <= p)%Q /\ (p <= 9 # 10)%Q /\ predict_label p = "idk").
Proof.
  unfold predict_label, threshold_policy.
  destruct (Qltb p (1 # 10)) eqn:Elo.
  - left. apply Qltb_lt in Elo. auto.
  - apply Qltb_ge in Elo.
    destruct (Qltb (9 # 10) p) eqn:Ehi.
    + right; left. apply Qltb_lt in Ehi. auto.
    + right; right. apply Qltb_ge in Ehi. auto.
Qed.

Lemma predict_label_real_cases (p : R) :
  ((p < 1 / 10)%R /\ predict_label_real p = "closed") \/
  ((9 / 10 < p)%R /\ predict_label_real p = "open") \/
  ((1 / 10 <= p)%R /\ (p <= 9 / 10)%R /\ predict_label_real p = "idk").
Proof.
  unfold predict_label_real, threshold_policy.
  destruct (Rltb p (1 / 10)) eqn:Elo.
  - left. apply Rltb_lt in Elo. auto.
  - apply Rltb_ge in Elo.
    destruct (Rltb (9 / 10) p) eqn:Ehi.
    + right; left. apply Rltb_lt in Ehi. auto.
    + right; right. apply Rltb_ge in Ehi. auto.
Qed.

(** C1. For every probability [p] (rational, as every float is, or real) the
    policy returns exactly one of the three labels: 'closed' iff [p < 0.1],
    'open' iff [p > 0.9], 'idk' iff [0.1 <= p <= 0.9]; at [p = 0.1] and at
    [p = 0.9] the answer is 'idk'. *)
Theorem decision_policy_thresholds :
  (forall p : Q,
      (predict_label p = "closed" \/ predict_label p = "open" \/
       predict_label p = "idk") /\
      (predict_label p = "closed" <-> (p < 1 # 10)%Q) /\
      (predict_label p = "open" <-> (9 # 10 < p)%Q) /\
      (predict_label p = "idk" <-> (1 # 10 <= p)%Q /\ (p <= 9 # 10)%Q)) /\
  (forall p : R,
      (predict_label_real p = "closed" \/ predict_label_real p = "open" \/
       predict_label_real p = "idk") /\
      (predict_label_real p = "closed" <-> (p < 1 / 10)%R) /\
      (predict_label_real p = "open" <-> (p > 9 / 10)%R) /\
      (predict_label_real p = "idk" <-> (1 / 10 <= p <= 9 / 10)%R)) /\
  predict_label (1 # 10) = "idk" /\ predict_label (9 # 10) = "idk" /\
  predict_label_real (1 / 10) = "idk" /\ predict_label_real (9 / 10) = "idk".
Proof.
  assert (HQ : forall p : Q,
      (predict_label p = "closed" \/ predict_label p = "open" \/
       predict_label p = "idk") /\
      (predict_label p = "closed" <-> (p < 1 # 10)%Q) /\
      (predict_label p = "open" <-> (9 # 10 < p)%Q) /\
      (predict_label p = "idk" <-> (1 # 10 <= p)%Q /\ (p <= 9 # 10)%Q)).
  { intros p.
    destruct (predict_label_cases p) as [[H1 ->]|[[H1 ->]|(H1 & H2 & ->)]];
      (split; [tauto|]);
      repeat split; intros; try discriminate; try reflexivity; try lra;
      exfalso; lra. }
  assert (HR : forall p : R,
      (predict_label_real p = "closed" \/ predict_label_real p = "open" \/
       predict_label_real p = "idk") /\
      (predict_label_real p = "closed" <-> (p < 1 / 10)%R) /\
      (predict_label_real p = "open" <-> (p > 9 / 10)%R) /\
      (predict_label_real p = "idk" <-> (1 / 10 <= p <= 9 / 10)%R)).
  { intros p.
    destruct (predict_label_real_cases p)
      as [[H1 ->]|[[H1 ->]|(H1 & H2 & ->)]];
      (split; [tauto|]);
      repeat split; intros; try discriminate; try reflexivity; try lra;
      exfalso; lra. }
  split; [exact HQ|]. split; [exact HR|].
  split; [reflexivity|]. split; [reflexivity|].
  split; apply HR; lra.
Qed.

(** Rounding the two literals to [float32] does not move any [float32] score
    across a threshold: the policy on floats is the policy on the reals. *)
Lemma float32_thresholds_agree (p : Q) :
  f32_grid p -> predict_label_f32 p = predict_label p.
Proof.
  intros Hgrid.
  assert (Hlo : Qltb p f32_0_1 = Qltb p (1 # 10)).
  { apply eq_true_iff_eq. rewrite !Qltb_lt. unfold f32_0_1.
    destruct Hgrid as [Hsmall|[[_ [m Hm]]|[m Hm]]].
    - split; intros _; lra.
    - rewrite Hm. unfold Qlt; simpl. lia.
    - rewrite Hm. unfold Qlt; simpl. lia. }
  assert (Hhi : Qltb f32_0_9 p = Qltb (9 # 10) p).
  { apply eq_true_iff_eq. rewrite !Qltb_lt. unfold f32_0_9.
    destruct Hgrid as [Hsmall|[[Hhalf _]|[m Hm]]].
    - split; intros ?; lra.
    - split; intros ?; lra.
    - rewrite Hm. unfold Qlt; simpl. lia. }
  unfold predict_label_f32, predict_label, threshold_policy.
  rewrite Hlo, Hhi. reflexivity.
Qed.

(** ** Preprocessing: helper lemmas *)

Lemma rgb_pixels_length (n : nat) : forall bytes : list Z,
  length bytes = (3 * n)%nat -> length (rgb_pixels bytes) = n.
Proof.
  induction n as [|n IH]; intros bytes Hlen.
  - destruct bytes; [reflexivity | discriminate].
  - destruct bytes as [|r [|g [|b rest]]]; simpl in Hlen; try lia.
    simpl. f_equal. apply IH. lia.
Qed.

Lemma rgb_pixels_uint8 (n : nat) : forall bytes : list Z,
  length bytes = (3 * n)%nat -> Forall uint8 bytes ->
  Forall (fun '(r, g, b) => uint8 r /\ uint8 g /\ uint8 b) (rgb_pixels bytes).
Proof.
  induction n as [|n IH]; intros bytes Hlen Hall.
  - destruct bytes; [constructor | discriminate].
  - destruct bytes as [|r [|g [|b rest]]]; simpl in Hlen; try lia.
    inversion Hall as [|? ? Hr Hall1]; subst.
    inversion Hall1 as [|? ? Hg Hall2]; subst.
    inversion Hall2 as [|? ? Hb Hall3]; subst.
    simpl. constructor; [auto|]. apply IH; [lia | assumption].
Qed.

Lemma luma_uint8 (r g b : Z) :
  uint8 r -> uint8 g -> uint8 b -> uint8 (luma (r, g, b)).
Proof.
  unfold uint8, luma. intros Hr Hg Hb.
  rewrite Z.shiftr_div_pow2 by lia.
  change (2 ^ 16)%Z with 65536%Z.
  split.
  - apply Z.div_pos; lia.
  - apply Z.lt_succ_r. apply Z.div_lt_upper_bound; lia.
Qed.

(** A grey pixel keeps its value. *)
Lemma luma_gray (v : Z) : luma (v, v, v) = v.
Proof.
  unfold luma. rewrite Z.shiftr_div_pow2 by lia.
  change (2 ^ 16)%Z with 65536%Z.
  symmetry. apply (Z.div_unique _ _ _ 32768); lia.
Qed.

Lemma div255_unit (v : Z) : uint8 v -> unit_interval (div255 v).
Proof.
  unfold uint8, unit_interval, div255. intros [H0 H255].
  rewrite Qred_correct.
  unfold Qdiv, Qle, Qmult, Qinv, inject_Z; simpl. lia.
Qed.

Lemma Forall_gather {A} (P : A -> Prop) (d : A) (src : list A)
  (index : nat -> nat) (n : nat) :
  P d -> Forall P src -> Forall P (gather d src index n).
Proof.
  intros Hd Hsrc. unfold gather. apply List.Forall_map.
  apply List.Forall_forall. intros idx _.
  destruct (Nat.lt_ge_cases (index idx) (length src)) as [Hlt|Hge].
  - apply List.Forall_nth; assumption.
  - rewrite List.nth_overflow by assumption. exact Hd.
Qed.

Lemma gather_length {A} (d : A) src index n :
  length (gather d src index n) = n.
Proof. unfold gather. rewrite length_map, length_seq. reflexivity. Qed.

Lemma gather_identity {A} (d : A) (src : list A) (index : nat -> nat) :
  (forall i, (i < length src)%nat -> index i = i) ->
  gather d src index (length src) = src.
Proof.
  intros Hid. unfold gather.
  apply (List.nth_ext _ _ d d).
  - rewrite length_map, length_seq. reflexivity.
  - intros i Hi. rewrite length_map, length_seq in Hi.
    rewrite (List.nth_indep _ d (nth (index 0%nat) src d))
      by (rewrite length_map, length_seq; assumption).
    rewrite (List.map_nth (fun idx => nth (index idx) src d)).
    rewrite List.seq_nth by assumption. simpl. rewrite Hid by assumption.
    reflexivity.
Qed.

Lemma nearest_same (i n : nat) : (0 < n)%nat -> nearest i n n = i.
Proof.
  intros Hn. unfold nearest. symmetry.
  apply (Nat.div_unique _ _ _ n); lia.
Qed.

Lemma fromarray_rgb_array (img : ndarray Z) (h w : nat) :
  shape img = [h; w; 3%nat] -> length (data img) = (3 * w * h)%nat ->
  Image_fromarray_RGB img = Ok (mk_image h w (rgb_pixels (data img))).
Proof.
  intros Hshape Hlen. unfold Image_fromarray_RGB. rewrite Hshape. simpl length.
  replace (1 <? 1)%nat with false by reflexivity.
  rewrite Hlen, Nat.ltb_irrefl.
  rewrite take_ge by lia. reflexivity.
Qed.

Lemma reshape_ok {A} (a : ndarray A) (s : list nat) :
  length (data a) = size_of s -> reshape a s = Ok (mk_ndarray s (data a)).
Proof. intros Hlen. unfold reshape. rewrite Hlen, Nat.eqb_refl. reflexivity. Qed.

Lemma Forall_div255 (l : list Z) :
  Forall uint8 l -> Forall unit_interval (map div255 l).
Proof.
  intros Hall. apply List.Forall_map.
  eapply List.Forall_impl; [|exact Hall]. apply div255_unit.
Qed.

Section Preprocessing.
Context `{ImagingOps}.

(** On a well-formed RGB array the image-to-tensor part of [predict]
    returns the resampled luminance, scaled, in the batch-of-one shape. *)
Lemma predict_tensor_rgb (img : ndarray Z) :
  imresize_total -> rgb_array img ->
  exists a,
    imresize (convert_L (mk_image (nth 0 (shape img) 0%nat)
                                  (nth 1 (shape img) 0%nat)
                                  (rgb_pixels (data img))))
             (IMG_SIZE, IMG_SIZE) = Ok a /\
    length (data a) = 576%nat /\ Forall uint8 (data a) /\
    predict_tensor img
    = Ok (mk_ndarray [1%nat; IMG_SIZE; IMG_SIZE; 1%nat] (map div255 (data a))).
Proof.
  intros Hresize (h & w & Hshape & Hh & Hw & Hlen & Hbytes).
  rewrite Hshape. simpl nth.
  destruct (Hresize (convert_L (mk_image h w (rgb_pixels (data img))))
              IMG_SIZE IMG_SIZE) as (a & Ha & Hsh & Hla & Hua);
    try (simpl; unfold IMG_SIZE; lia).
  - simpl. rewrite length_map. apply rgb_pixels_length. lia.
  - simpl. apply List.Forall_map.
    eapply List.Forall_impl;
      [|apply (rgb_pixels_uint8 (h * w)); [lia | exact Hbytes]].
    intros [[r g] b] (Hr & Hg & Hb). apply luma_uint8; assumption.
  - exists a. split; [exact Ha|]. split; [exact Hla|]. split; [exact Hua|].
    unfold predict_tensor.
    rewrite (fromarray_rgb_array img h w Hshape Hlen). simpl.
    rewrite Ha. simpl.
    apply reshape_ok. simpl. rewrite length_map. exact Hla.
Qed.
End Preprocessing.

Section PreprocessingClaims.
Context `{ImagingOps}.

(** On a decoded 8-bit image [load_image] returns the array scikit-image
    makes of the scaled samples, with the batch axis in front. *)
Lemma load_image_decoded (fs : filesystem) (filename : string)
  (a : ndarray Z) :
  transform_resize_total ->
  Image_open_array fs filename = Ok a -> decoded_image a ->
  exists b,
    transform_resize (astype_float32_div255 a) [IMG_SIZE; IMG_SIZE; 1%nat]
    = Ok b /\
    shape b = [IMG_SIZE; IMG_SIZE; 1%nat] /\ length (data b) = 576%nat /\
    (Forall uint8 (data a) -> Forall unit_interval (data b)) /\
    load_image fs filename = Ok (expand_dims0 b).
Proof.
  intros Hresize Hopen Hdec.
  destruct (Hresize (astype_float32_div255 a) IMG_SIZE IMG_SIZE 1%nat)
    as (b & Hb & Hsh & Hlen & Hrange); try (unfold IMG_SIZE; lia).
  - destruct Hdec as [(h & w & Hs & Hh & Hw & Hl)
                     |(h & w & c & Hs & Hh & Hw & Hc & Hl)].
    + left. exists h, w. simpl. rewrite length_map. auto.
    + right. exists h, w, c. simpl. rewrite length_map. auto.
  - exists b. split; [exact Hb|]. split; [exact Hsh|].
    split; [exact Hlen|]. split.
    + intros Hbytes. apply Hrange. simpl. apply Forall_div255, Hbytes.
    + unfold load_image. rewrite Hopen. simpl. rewrite Hb. reflexivity.
Qed.

(** C2. For every valid input image (for [predict]: an H x W x 3 array of
    bytes with H, W > 0; for [load_image]: a file that decodes to an 8-bit
    image of two or three axes) the single-image preprocessing returns a
    tensor of shape [1, 24, 24, 1] whose 576 values all lie in [0, 1]. *)
Theorem preprocessing_shape_and_range :
  imresize_total -> transform_resize_total ->
  (forall img : ndarray Z,
      rgb_array img ->
      exists t, predict_tensor img = Ok t /\
                shape t = [1; 24; 24; 1]%nat /\
                well_shaped t /\
                Forall unit_interval (data t)) /\
  (forall (fs : filesystem) (filename : string) (a : ndarray Z),
      Image_open_array fs filename = Ok a ->
      decoded_image a -> Forall uint8 (data a) ->
      exists t, load_image fs filename = Ok t /\
                shape t = [1; 24; 24; 1]%nat /\
                well_shaped t /\
                Forall unit_interval (data t)).
Proof.
  intros Himresize Hresize. split.
  - intros img Himg.
    destruct (predict_tensor_rgb img Himresize Himg)
      as (a & _ & Hlen & Hbytes & ->).
    eexists. split; [reflexivity|]. split; [reflexivity|]. split.
    + unfold well_shaped. simpl. rewrite length_map. exact Hlen.
    + simpl. apply Forall_div255, Hbytes.
  - intros fs filename a Hopen Hdec Hbytes.
    destruct (load_image_decoded fs filename a Hresize Hopen Hdec)
      as (b & _ & Hsh & Hlen & Hrange & ->).
    eexists. split; [reflexivity|]. split.
    + unfold expand_dims0. simpl. rewrite Hsh. reflexivity.
    + split.
      * unfold well_shaped, expand_dims0. simpl. rewrite Hsh. simpl.
        exact Hlen.
      * simpl. apply Hrange, Hbytes.
Qed.
End PreprocessingClaims.

(** The reference resamplers satisfy the laws. *)

Lemma ref_imresize_total : @imresize_total ref_imaging.
Proof.
  intros im rows cols Hh Hw Hlen Hbytes Hr Hc. simpl. unfold ref_imresize.
  destruct (Nat.eqb_spec (im_height im) 0); [lia|].
  destruct (Nat.eqb_spec (im_width im) 0); [lia|].
  destruct (Nat.eqb_spec rows 0); [lia|].
  destruct (Nat.eqb_spec cols 0); [lia|].
  simpl. eexists. split; [reflexivity|]. simpl.
  split; [reflexivity|]. split; [apply gather_length|].
  apply Forall_gather; [unfold uint8; lia | exact Hbytes].
Qed.

Lemma unit_interval_0 : unit_interval 0.
Proof. unfold unit_interval. split; [apply Qle_refl | discriminate]. Qed.

Lemma nth_unit (src : list Q) (p : nat) :
  Forall unit_interval src -> unit_interval (nth p src 0%Q).
Proof.
  intros Hsrc. destruct (Nat.lt_ge_cases p (length src)) as [Hlt|Hge].
  - apply List.Forall_nth; assumption.
  - rewrite List.nth_overflow by assumption. apply unit_interval_0.
Qed.

Lemma smooth_channels_unit (src : list Q) (p : nat) :
  Forall unit_interval src -> unit_interval (smooth_channels src p).
Proof.
  intros Hsrc. unfold smooth_channels.
  destruct (nth_unit src p Hsrc) as [Ha0 Ha1].
  destruct (nth_unit src (p + 1) Hsrc) as [Hb0 Hb1].
  destruct (nth_unit src (p + 2) Hsrc) as [Hc0 Hc1].
  unfold unit_interval. rewrite Qred_correct.
  unfold channel_side, channel_middle. split; lra.
Qed.

Lemma ref_resample_ok (h w ch : nat) (src : list Q) (r c k : nat) :
  (0 < h)%nat -> (0 < w)%nat -> (0 < ch)%nat ->
  (0 < r)%nat -> (0 < c)%nat -> (0 < k)%nat ->
  exists b, ref_resample h w ch src r c k = Ok b /\
            shape b = [r; c; k] /\ length (data b) = (r * c * k)%nat /\
            (Forall unit_interval src -> Forall unit_interval (data b)).
Proof.
  intros Hh Hw Hch Hr Hc Hk. unfold ref_resample.
  destruct (Nat.eqb_spec h 0); [lia|]. destruct (Nat.eqb_spec w 0); [lia|].
  destruct (Nat.eqb_spec ch 0); [lia|]. destruct (Nat.eqb_spec r 0); [lia|].
  destruct (Nat.eqb_spec c 0); [lia|]. destruct (Nat.eqb_spec k 0); [lia|].
  cbn [orb]. destruct (Nat.eqb ch 3 && Nat.eqb k 1).
  - eexists. split; [reflexivity|]. cbn [shape data].
    split; [reflexivity|].
    split; [rewrite length_map, length_seq; reflexivity|].
    intros Hsrc. apply List.Forall_map, List.Forall_forall. intros idx _.
    apply smooth_channels_unit, Hsrc.
  - eexists. split; [reflexivity|]. cbn [shape data].
    split; [reflexivity|]. split; [apply gather_length|].
    intros Hsrc. apply Forall_gather; [apply unit_interval_0 | exact Hsrc].
Qed.

Lemma ref_transform_resize_total : @transform_resize_total ref_imaging.
Proof.
  intros a r c k Hshape Hr Hc Hk. simpl. unfold ref_transform_resize.
  destruct Hshape as [(h & w & Hs & Hh & Hw & _)
                     |(h & w & ch & Hs & Hh & Hw & Hch & _)]; rewrite Hs.
  - apply ref_resample_ok; lia.
  - apply ref_resample_ok; lia.
Qed.

Lemma small_rgb_is_rgb_array : rgb_array small_rgb.
Proof.
  exists 2%nat, 3%nat. split; [reflexivity|]. split; [lia|]. split; [lia|].
  split; [reflexivity|].
  unfold small_rgb, solid_rgb, uint8. simpl. repeat constructor; lia.
Defined.

Lemma small_rgb_decoded : decoded_image small_rgb.
Proof.
  right. exists 2%nat, 3%nat, 3%nat.
  split; [reflexivity|]. repeat (split; [lia|]). reflexivity.
Defined.

Lemma preprocessing_shape_and_range_witness :
  (exists t, @predict_tensor ref_imaging small_rgb = Ok t /\
             shape t = [1; 24; 24; 1]%nat /\ well_shaped t /\
             Forall unit_interval (data t)) /\
  (exists t, @load_image ref_imaging small_rgb_files "eye.png" = Ok t /\
             shape t = [1; 24; 24; 1]%nat /\ well_shaped t /\
             Forall unit_interval (data t)).
Proof.
  destruct (@preprocessing_shape_and_range ref_imaging
              ref_imresize_total ref_transform_resize_total) as [Hp Hl].
  split.
  - apply Hp. exact small_rgb_is_rgb_array.
  - apply (Hl small_rgb_files "eye.png" small_rgb).
    + vm_compute. reflexivity.
    + exact small_rgb_decoded.
    + unfold small_rgb, solid_rgb, uint8. simpl. repeat constructor; lia.
Defined.

(** ** The reference resamplers, equation by equation *)

Lemma ref_imresize_eq (h w : nat) (px : list Z) (rows cols : nat) :
  (0 < h)%nat -> (0 < w)%nat -> (0 < rows)%nat -> (0 < cols)%nat ->
  ref_imresize (mk_image h w px) (rows, cols)
  = Ok (mk_ndarray [rows; cols]
          (gather 0%Z px
             (fun idx => nearest (idx / cols) h rows * w
                         + nearest (idx mod cols) w cols)%nat
             (rows * cols))).
Proof.
  intros Hh Hw Hr Hc. unfold ref_imresize. cbn [im_height im_width im_pixels].
  destruct (Nat.eqb_spec h 0); [lia|]. destruct (Nat.eqb_spec w 0); [lia|].
  destruct (Nat.eqb_spec rows 0); [lia|].
  destruct (Nat.eqb_spec cols 0); [lia|]. reflexivity.
Qed.

Lemma ref_resample_eq (h w ch : nat) (src : list Q) (r c k : nat) :
  (0 < h)%nat -> (0 < w)%nat -> (0 < ch)%nat ->
  (0 < r)%nat -> (0 < c)%nat -> (0 < k)%nat ->
  Nat.eqb ch 3 && Nat.eqb k 1 = false ->
  ref_resample h w ch src r c k
  = Ok (mk_ndarray [r; c; k]
          (gather 0%Q src
             (fun idx => (nearest (idx / (c * k)) h r * w
                          + nearest ((idx / k) mod c) w c) * ch
                         + nearest (idx mod k) ch k)%nat
             (r * c * k))).
Proof.
  intros Hh Hw Hch Hr Hc Hk Hplain. unfold ref_resample.
  destruct (Nat.eqb_spec h 0); [lia|]. destruct (Nat.eqb_spec w 0); [lia|].
  destruct (Nat.eqb_spec ch 0); [lia|]. destruct (Nat.eqb_spec r 0); [lia|].
  destruct (Nat.eqb_spec c 0); [lia|]. destruct (Nat.eqb_spec k 0); [lia|].
  cbn [orb]. rewrite Hplain. reflexivity.
Qed.

Lemma ref_resample_rgb (h w : nat) (src : list Q) (r c : nat) :
  ref_resample h w 3 src r c 1
  = if Nat.eqb h 0 || Nat.eqb w 0 || Nat.eqb r 0 || Nat.eqb c 0
    then Raise "ValueError"
    else Ok (mk_ndarray [r; c; 1%nat]
               (map (fun idx => smooth_channels src
                                  ((nearest (idx / c) h r * w
                                    + nearest (idx mod c) w c) * 3)%nat)
                    (seq 0 (r * c * 1)))).
Proof.
  unfold ref_resample. cbn [Nat.eqb andb].
  rewrite !orb_false_r. reflexivity.
Qed.

Lemma flat_index (i w : nat) : (0 < w)%nat -> (i / w * w + i mod w)%nat = i.
Proof. intros Hw. rewrite (Nat.div_mod i w) at 3 by lia. lia. Qed.

Lemma ref_imresize_same_size : @imresize_same_size ref_imaging.
Proof.
  intros h w px Hh Hw Hlen. cbn [imresize ref_imaging].
  rewrite ref_imresize_eq by assumption. do 2 f_equal. rewrite <- Hlen.
  apply gather_identity. intros i Hi.
  rewrite !nearest_same by lia. apply flat_index, Hw.
Qed.

Lemma ref_transform_resize_same_size : @transform_resize_same_size ref_imaging.
Proof.
  intros h w g Hh Hw Hlen. cbn [transform_resize ref_imaging].
  unfold ref_transform_resize. cbn [shape data].
  rewrite ref_resample_eq by (try lia; reflexivity). do 2 f_equal.
  replace (h * w * 1)%nat with (length g) by lia.
  apply gather_identity. intros i Hi.
  rewrite Nat.mul_1_r, Nat.div_1_r, Nat.mod_1_r.
  rewrite !nearest_same by lia.
  change (nearest 0 1 1) with 0%nat.
  rewrite Nat.mul_1_r, Nat.add_0_r. apply flat_index, Hw.
Qed.

(** ** Three-channel images, pixel by pixel *)

Lemma interleave_cons {A} (p : A * A * A) (px : list (A * A * A)) :
  interleave (p :: px) = p.1.1 :: p.1.2 :: p.2 :: interleave px.
Proof. reflexivity. Qed.

Lemma interleave_length {A} (px : list (A * A * A)) :
  length (interleave px) = (3 * length px)%nat.
Proof.
  induction px as [|p px IH]; [reflexivity|].
  rewrite interleave_cons. cbn [length]. rewrite IH. lia.
Qed.

Lemma rgb_pixels_interleave (px : list rgb) : rgb_pixels (interleave px) = px.
Proof.
  induction px as [|[[r g] b] px IH]; [reflexivity|].
  change (interleave ((r, g, b) :: px)) with (r :: g :: b :: interleave px).
  cbn [rgb_pixels]. rewrite IH. reflexivity.
Qed.

Lemma map_interleave {A B} (f : A -> B) (px : list (A * A * A)) :
  map f (interleave px) = interleave (map (map_channels f) px).
Proof.
  induction px as [|p px IH]; [reflexivity|].
  cbn [map]. rewrite !interleave_cons. cbn [map]. rewrite IH. reflexivity.
Qed.

Lemma map_channels_swap {A B} (f : A -> B) (px : list (A * A * A)) :
  map (map_channels f) (map swap_rb px) = map swap_rb (map (map_channels f) px).
Proof. rewrite !List.map_map. reflexivity. Qed.

Lemma nth_interleave {A} (d : A) : forall (px : list (A * A * A)) (q : nat),
  nth (q * 3) (interleave px) d = (nth q px (d, d, d)).1.1 /\
  nth (q * 3 + 1) (interleave px) d = (nth q px (d, d, d)).1.2 /\
  nth (q * 3 + 2) (interleave px) d = (nth q px (d, d, d)).2.
Proof.
  induction px as [|p px IH]; intros q.
  - cbn [interleave mbind list_bind]. destruct q; cbn [nth];
      repeat split; destruct (_ + _)%nat; reflexivity.
  - rewrite interleave_cons. destruct q as [|q].
    + repeat split.
    + replace (S q * 3)%nat with (S (S (S (q * 3)))) by lia.
      cbn [Nat.add nth]. apply IH.
Qed.

Lemma smooth_channels_swap (px : list (Q * Q * Q)) (q : nat) :
  smooth_channels (interleave (map swap_rb px)) (q * 3)
  = smooth_channels (interleave px) (q * 3).
Proof.
  unfold smooth_channels.
  destruct (nth_interleave 0%Q (map swap_rb px) q) as (-> & -> & ->).
  destruct (nth_interleave 0%Q px q) as (-> & -> & ->).
  change (0%Q, 0%Q, 0%Q) with (@swap_rb Q (0%Q, 0%Q, 0%Q)) at 1 2 3.
  rewrite !List.map_nth. cbn [swap_rb fst snd].
  apply Qred_complete. ring.
Qed.

Lemma ref_transform_resize_channel_symmetric :
  @transform_resize_channel_symmetric ref_imaging.
Proof.
  intros h w r c px _. cbn [transform_resize ref_imaging].
  unfold ref_transform_resize. cbn [shape data].
  rewrite !ref_resample_rgb.
  destruct (Nat.eqb h 0 || Nat.eqb w 0 || Nat.eqb r 0 || Nat.eqb c 0);
    [reflexivity|].
  do 2 f_equal. apply List.map_ext. intros idx. apply smooth_channels_swap.
Qed.

Lemma div255_inj (a b : Z) : div255 a = div255 b -> a = b.
Proof.
  unfold div255. intros Heq.
  assert (Hq : (inject_Z a / 255 == inject_Z b / 255)%Q)
    by (rewrite <- (Qred_correct (inject_Z a / 255)), Heq; apply Qred_correct).
  unfold Qeq, Qdiv, Qmult, Qinv, inject_Z in Hq. simpl in Hq. lia.
Qed.

(** Luminance tells the first channel from the last: where some pixel has a
    luminance that changes when the two are exchanged, the luminance tensors
    of the image and of the exchanged image differ. *)
Lemma luminance_tells_channels (px : list rgb) :
  (exists p : rgb, In p px /\ luma p <> luma (swap_rb p)) ->
  scaled_tensor (map luma px) <> scaled_tensor (map luma (map swap_rb px)).
Proof.
  intros (p & Hin & Hne) Heq. apply Hne.
  unfold scaled_tensor in Heq. injection Heq as Heq.
  rewrite !List.map_map in Heq.
  apply div255_inj.
  exact (proj1 List.map_ext_in_iff Heq p Hin).
Qed.

Section PreprocessingOrder.
Context `{ImagingOps}.

Lemma load_image_single_channel (fs : filesystem) (filename : string)
  (g : list Z) :
  transform_resize_same_size -> length g = 576%nat ->
  Image_open_array fs filename = Ok (mk_ndarray [24; 24]%nat g) ->
  load_image fs filename = Ok (scaled_tensor g).
Proof.
  intros Hsame Hlen Hopen. unfold load_image. rewrite Hopen.
  cbn [mbind result_bind]. unfold astype_float32_div255. cbn [shape data].
  unfold IMG_SIZE. rewrite Hsame by (try lia; rewrite length_map; lia).
  reflexivity.
Qed.

Lemma spec_prepare_colour (px : list rgb) :
  imresize_same_size -> length px = 576%nat ->
  spec_prepare (rgb_image 24 24 px) = Ok (scaled_tensor (map luma px)).
Proof.
  intros Hsame Hlen. unfold spec_prepare, spec_grayscale, rgb_image.
  cbn [shape data]. rewrite rgb_pixels_interleave.
  cbn [mbind result_bind]. unfold IMG_SIZE.
  rewrite Hsame by (try lia; rewrite length_map; lia).
  cbn [mbind result_bind]. unfold astype_float32_div255. cbn [shape data].
  rewrite reshape_ok by (cbn [data]; rewrite !length_map; exact Hlen).
  reflexivity.
Qed.

Lemma predict_tensor_colour (px : list rgb) :
  imresize_same_size -> length px = 576%nat ->
  predict_tensor (rgb_image 24 24 px) = Ok (scaled_tensor (map luma px)).
Proof.
  intros Hsame Hlen. unfold predict_tensor.
  rewrite (fromarray_rgb_array _ 24 24)
    by (try reflexivity; unfold rgb_image; cbn [data];
        rewrite interleave_length; unfold rgb in *; lia).
  cbn [mbind result_bind]. unfold convert_L, rgb_image.
  cbn [im_height im_width im_pixels data]. rewrite rgb_pixels_interleave.
  unfold IMG_SIZE. rewrite Hsame by (try lia; rewrite length_map; lia).
  cbn [mbind result_bind]. unfold astype_float32_div255. cbn [shape data].
  rewrite reshape_ok by (cbn [data]; rewrite !length_map; exact Hlen).
  reflexivity.
Qed.

(** [load_image] cannot tell an image from the image with its first and
    last channel exchanged. *)
Lemma load_image_channel_symmetric (fs : filesystem) (f1 f2 : string)
  (px : list rgb) :
  transform_resize_channel_symmetric -> length px = 576%nat ->
  Image_open_array fs f1 = Ok (rgb_image 24 24 px) ->
  Image_open_array fs f2 = Ok (rgb_image 24 24 (map swap_rb px)) ->
  load_image fs f2 = load_image fs f1.
Proof.
  intros Hsym Hlen Hopen1 Hopen2. unfold load_image.
  rewrite Hopen1, Hopen2. cbn [mbind result_bind].
  unfold astype_float32_div255, rgb_image. cbn [shape data].
  rewrite !map_interleave, map_channels_swap.
  unfold IMG_SIZE. rewrite Hsym by (rewrite length_map; unfold rgb in *; lia).
  reflexivity.
Qed.

(** C3 (a defect of [load_image]).  The specified order starts with the
    conversion to luminance.  [load_image] has no such step: it divides by
    255 and leaves the three channels to the resize to (24, 24, 1), which
    treats the first and the last channel alike.  So [load_image] returns
    the same tensor for a 24 x 24 colour image and for the image with red and
    blue exchanged, whereas the specified steps return the luminance of each,
    and these differ as soon as one pixel's luminance changes under the
    exchange: on one of the two images at least, [load_image] does not
    return what the specified steps return. *)
Theorem load_image_omits_luminance :
  imresize_same_size -> transform_resize_channel_symmetric ->
  forall (fs : filesystem) (f1 f2 : string) (px : list rgb),
    length px = 576%nat ->
    Image_open_array fs f1 = Ok (rgb_image 24 24 px) ->
    Image_open_array fs f2 = Ok (rgb_image 24 24 (map swap_rb px)) ->
    (exists p : rgb, In p px /\ luma p <> luma (swap_rb p)) ->
    spec_prepare (rgb_image 24 24 px) = Ok (scaled_tensor (map luma px)) /\
    spec_prepare (rgb_image 24 24 (map swap_rb px))
    = Ok (scaled_tensor (map luma (map swap_rb px))) /\
    load_image fs f2 = load_image fs f1 /\
    ~ (load_image fs f1 = spec_prepare (rgb_image 24 24 px) /\
       load_image fs f2 = spec_prepare (rgb_image 24 24 (map swap_rb px))).
Proof.
  intros Hsame Hsym fs f1 f2 px Hlen Hopen1 Hopen2 Hpixel.
  pose proof (spec_prepare_colour px Hsame Hlen) as Hspec1.
  pose proof (spec_prepare_colour (map swap_rb px) Hsame
                ltac:(rewrite length_map; exact Hlen)) as Hspec2.
  pose proof (load_image_channel_symmetric fs f1 f2 px Hsym Hlen Hopen1 Hopen2)
    as Hload.
  split; [exact Hspec1|]. split; [exact Hspec2|]. split; [exact Hload|].
  intros [H1 H2]. rewrite Hload, H1, Hspec1, Hspec2 in H2.
  apply (luminance_tells_channels px Hpixel). congruence.
Qed.

(** C4 (the same defect of [load_image]).  The two implementations do not
    compute the same tensor: on a 24 x 24 colour image [predict] feeds the
    network the luminance, divided by 255 once; [load_image] also divides by
    255 once, but without the luminance conversion it returns one and the
    same tensor for the image and for the image with red and blue exchanged,
    where [predict] returns two different ones.  On one of the two images at
    least the implementations disagree. *)
Theorem load_image_differs_from_predict :
  imresize_same_size -> transform_resize_channel_symmetric ->
  forall (fs : filesystem) (f1 f2 : string) (px : list rgb),
    length px = 576%nat ->
    Image_open_array fs f1 = Ok (rgb_image 24 24 px) ->
    Image_open_array fs f2 = Ok (rgb_image 24 24 (map swap_rb px)) ->
    (exists p : rgb, In p px /\ luma p <> luma (swap_rb p)) ->
    predict_tensor (rgb_image 24 24 px) = Ok (scaled_tensor (map luma px)) /\
    predict_tensor (rgb_image 24 24 (map swap_rb px))
    = Ok (scaled_tensor (map luma (map swap_rb px))) /\
    predict_tensor (rgb_image 24 24 px)
    <> predict_tensor (rgb_image 24 24 (map swap_rb px)) /\
    load_image fs f2 = load_image fs f1 /\
    ~ (predict_tensor (rgb_image 24 24 px) = load_image fs f1 /\
       predict_tensor (rgb_image 24 24 (map swap_rb px)) = load_image fs f2).
Proof.
  intros Hsame Hsym fs f1 f2 px Hlen Hopen1 Hopen2 Hpixel.
  pose proof (predict_tensor_colour px Hsame Hlen) as Hpred1.
  pose proof (predict_tensor_colour (map swap_rb px) Hsame
                ltac:(rewrite length_map; exact Hlen)) as Hpred2.
  pose proof (load_image_channel_symmetric fs f1 f2 px Hsym Hlen Hopen1 Hopen2)
    as Hload.
  assert (Hne : predict_tensor (rgb_image 24 24 px)
                <> predict_tensor (rgb_image 24 24 (map swap_rb px))).
  { rewrite Hpred1, Hpred2. intros [= Heq].
    apply (luminance_tells_channels px Hpixel). unfold scaled_tensor.
    rewrite Heq. reflexivity. }
  split; [exact Hpred1|]. split; [exact Hpred2|]. split; [exact Hne|].
  split; [exact Hload|].
  intros [H1 H2]. apply Hne. rewrite H1, H2, Hload. reflexivity.
Qed.

(** C5, as amended.  The code raises no exception of its own (there is no
    DecodeError and no EmptyImageError in it) and checks nothing: [predict]
    prepares every non-empty H x W x 3 byte array and [load_image] every
    file that decodes to a non-empty image of two or three axes, at any
    resolution; a failing library call's exception is passed on as it is:
    [ValueError] from [Image.fromarray] for a two-axis array given to
    [predict], [FileNotFoundError] for a missing file, the decoder's
    exception for a file it rejects. *)
Theorem preprocessing_failures :
  imresize_total -> transform_resize_total ->
  (forall img : ndarray Z, rgb_array img -> succeeds (predict_tensor img)) /\
  (forall (fs : filesystem) (filename : string) (a : ndarray Z),
      Image_open_array fs filename = Ok a -> decoded_image a ->
      succeeds (load_image fs filename)) /\
  (forall (h w : nat) (px : list Z),
      (0 < h)%nat -> (0 < w)%nat -> length px = (h * w)%nat ->
      predict_tensor (mk_ndarray [h; w] px) = Raise "ValueError") /\
  (forall (fs : filesystem) (filename : string),
      fs !! filename = None ->
      load_image fs filename = Raise "FileNotFoundError") /\
  (forall (fs : filesystem) (filename contents : string) (e : exn),
      fs !! filename = Some contents -> pil_decode contents = Raise e ->
      load_image fs filename = Raise e).
Proof.
  intros Himresize Hresize. repeat split.
  - intros img Himg.
    destruct (predict_tensor_rgb img Himresize Himg) as (a & _ & _ & _ & ->).
    eexists. reflexivity.
  - intros fs filename a Hopen Hdec.
    destruct (load_image_decoded fs filename a Hresize Hopen Hdec)
      as (b & _ & _ & _ & _ & ->).
    eexists. reflexivity.
  - intros h w px Hh Hw Hlen.
    unfold predict_tensor, Image_fromarray_RGB. cbn [shape data length].
    replace (1 <? 0)%nat with false by reflexivity.
    destruct (Nat.ltb_spec (length px) (3 * w * h)) as [_|Hge]; [reflexivity|].
    exfalso. nia.
  - intros fs filename Hnone.
    unfold load_image, Image_open_array, py_open_read. rewrite Hnone.
    reflexivity.
  - intros fs filename contents e Hsome Hdec.
    unfold load_image, Image_open_array, py_open_read. rewrite Hsome.
    cbn [mbind result_bind]. rewrite Hdec. reflexivity.
Qed.
End PreprocessingOrder.

(** ** The preprocessing claims on concrete images *)

Lemma uint8_check (l : list Z) : forallb uint8b l = true -> Forall uint8 l.
Proof.
  intros Hall. apply List.Forall_forall. intros v Hin.
  rewrite List.forallb_forall in Hall. specialize (Hall v Hin).
  unfold uint8b in Hall. unfold uint8. lia.
Qed.

Lemma blue_eye_opens :
  @Image_open_array ref_imaging colour_files "blue.png"
  = Ok (rgb_image 24 24 blue_pixels).
Proof. vm_compute. reflexivity. Qed.

Lemma red_eye_opens :
  @Image_open_array ref_imaging colour_files "red.png"
  = Ok (rgb_image 24 24 (map swap_rb blue_pixels)).
Proof. vm_compute. reflexivity. Qed.

Lemma blue_pixel_luminance :
  exists p : rgb, In p blue_pixels /\ luma p <> luma (swap_rb p).
Proof.
  exists (0, 0, 255)%Z. split; [left; reflexivity|].
  vm_compute. discriminate.
Qed.

(** C5, counterexample.  A 2 x 2 single-channel array is a perfectly good
    image with non-zero dimensions, yet [predict] fails on it, and with
    neither of the two errors of the specification: [Image.fromarray(img,
    'RGB')] finds 4 bytes where it needs 12 and raises [ValueError]. *)
Lemma predict_rejects_grayscale_array :
  decoded_image gray_2x2 /\
  @predict_tensor ref_imaging gray_2x2 = Raise "ValueError" /\
  ~ succeeds (@predict_tensor ref_imaging gray_2x2) /\
  ~ raises (@predict_tensor ref_imaging gray_2x2) "DecodeError" /\
  ~ raises (@predict_tensor ref_imaging gray_2x2) "EmptyImageError".
Proof.
  split.
  { left. exists 2%nat, 2%nat. repeat (split; [reflexivity || lia|]).
    reflexivity. }
  assert (Hval : @predict_tensor ref_imaging gray_2x2 = Raise "ValueError")
    by reflexivity.
  split; [exact Hval|]. unfold succeeds, raises. rewrite Hval.
  split; [intros [t Ht]; discriminate|]. split; discriminate.
Qed.

Lemma load_image_omits_luminance_witness :
  @spec_prepare ref_imaging blue_eye
  = Ok (scaled_tensor (replicate 576 29%Z)) /\
  @spec_prepare ref_imaging red_eye
  = Ok (scaled_tensor (replicate 576 76%Z)) /\
  @load_image ref_imaging colour_files "red.png"
  = @load_image ref_imaging colour_files "blue.png" /\
  ~ (@load_image ref_imaging colour_files "blue.png"
     = @spec_prepare ref_imaging blue_eye /\
     @load_image ref_imaging colour_files "red.png"
     = @spec_prepare ref_imaging red_eye).
Proof.
  exact (@load_image_omits_luminance ref_imaging
           ref_imresize_same_size ref_transform_resize_channel_symmetric
           colour_files "blue.png" "red.png" blue_pixels
           eq_refl blue_eye_opens red_eye_opens blue_pixel_luminance).
Defined.

Lemma load_image_differs_from_predict_witness :
  @predict_tensor ref_imaging blue_eye
  = Ok (scaled_tensor (replicate 576 29%Z)) /\
  @predict_tensor ref_imaging red_eye
  = Ok (scaled_tensor (replicate 576 76%Z)) /\
  @predict_tensor ref_imaging blue_eye <> @predict_tensor ref_imaging red_eye /\
  @load_image ref_imaging colour_files "red.png"
  = @load_image ref_imaging colour_files "blue.png" /\
  ~ (@predict_tensor ref_imaging blue_eye
     = @load_image ref_imaging colour_files "blue.png" /\
     @predict_tensor ref_imaging red_eye
     = @load_image ref_imaging colour_files "red.png").
Proof.
  exact (@load_image_differs_from_predict ref_imaging
           ref_imresize_same_size ref_transform_resize_channel_symmetric
           colour_files "blue.png" "red.png" blue_pixels
           eq_refl blue_eye_opens red_eye_opens blue_pixel_luminance).
Defined.

Lemma preprocessing_failures_witness :
  succeeds (@predict_tensor ref_imaging small_rgb) /\
  succeeds (@load_image ref_imaging small_rgb_files "eye.png") /\
  @predict_tensor ref_imaging gray_2x2 = Raise "ValueError" /\
  @load_image ref_imaging ∅ "eye.png" = Raise "FileNotFoundError" /\
  @load_image ref_imaging junk_files "eye.png" = Raise "OSError".
Proof.
  destruct (@preprocessing_failures ref_imaging
              ref_imresize_total ref_transform_resize_total)
    as (Hrgb & Hfile & Hgray & Hmissing & Hdecode).
  split; [apply Hrgb; exact small_rgb_is_rgb_array|].
  split.
  { apply (Hfile small_rgb_files "eye.png" small_rgb);
      [vm_compute; reflexivity | exact small_rgb_decoded]. }
  split; [apply (Hgray 2%nat 2%nat); [lia | lia | reflexivity]|].
  split; [apply Hmissing; reflexivity|].
  apply (Hdecode junk_files "eye.png" "junk"); reflexivity.
Defined.

(** ** Model persistence *)

Section Persistence.
Context `{ImagingOps} `{KerasOps}.

Lemma load_model_after_save (m : keras_model) (fs : filesystem) :
  json_roundtrip -> h5_roundtrip ->
  load_model (save_model m fs)
  = Ok (mk_model (model_arch m) (model_weights m)
          (Some (mk_compile "binary_crossentropy" "adam" ["accuracy"]))).
Proof.
  intros Hjson Hh5. unfold load_model, save_model, py_open_read.
  rewrite lookup_insert_ne by discriminate. rewrite lookup_insert_eq.
  cbn [mbind result_bind]. rewrite Hjson. cbn [mbind result_bind].
  unfold load_weights. rewrite lookup_insert_eq. cbn [model_arch].
  rewrite Hh5. reflexivity.
Qed.

(** C8. Saving a model and loading it back gives a model with the same
    structure and the same weights, hence the same score on every input
    tensor (exactly, so within any tolerance) and the same label on every
    image. *)
Theorem save_load_roundtrip :
  json_roundtrip -> h5_roundtrip ->
  forall (m : keras_model) (fs : filesystem),
  exists m' : keras_model,
    load_model (save_model m fs) = Ok m' /\
    model_arch m' = model_arch m /\
    model_weights m' = model_weights m /\
    (forall t : ndarray Q, model_predict m' t = model_predict m t) /\
    (forall img : ndarray Z, predict img m' = predict img m).
Proof.
  intros Hjson Hh5 m fs. eexists.
  split; [apply load_model_after_save; assumption|].
  repeat split.
Qed.

(** C9, as amended.  [load_model] has no error of its own (there is no
    CorruptArtifactError in the code) and handles none: it fails exactly
    when one of its four steps fails, with that step's exception, and returns
    a model exactly when all four succeed.  The steps: [open] on
    "model.json" ([FileNotFoundError] when the file is missing),
    [model_from_json] on its contents, opening "model.h5"
    ([FileNotFoundError] again when it is missing), and reading the weights
    into the structure just parsed, which is where Keras refuses a truncated
    file or weights of other shapes.  The model returned carries the parsed
    structure and the weights read, compiled for binary cross-entropy. *)
Theorem load_model_failures (fs : filesystem) :
  (forall e : exn,
      load_model fs = Raise e <->
      (fs !! "model.json" = None /\ e = "FileNotFoundError") \/
      (exists json : string,
          fs !! "model.json" = Some json /\ model_from_json json = Raise e) \/
      (exists (json : string) (a : architecture),
          fs !! "model.json" = Some json /\ model_from_json json = Ok a /\
          fs !! "model.h5" = None /\ e = "FileNotFoundError") \/
      (exists (json blob : string) (a : architecture),
          fs !! "model.json" = Some json /\ model_from_json json = Ok a /\
          fs !! "model.h5" = Some blob /\ weights_from_h5 a blob = Raise e)) /\
  (forall m : keras_model,
      load_model fs = Ok m <->
      exists (json blob : string) (a : architecture) (w : weights),
        fs !! "model.json" = Some json /\ model_from_json json = Ok a /\
        fs !! "model.h5" = Some blob /\ weights_from_h5 a blob = Ok w /\
        m = mk_model a w
              (Some (mk_compile "binary_crossentropy" "adam" ["accuracy"]))) /\
  (raises (load_model fs) "CorruptArtifactError" ->
   exists json : string,
     fs !! "model.json" = Some json /\
     (model_from_json json = Raise "CorruptArtifactError" \/
      exists (blob : string) (a : architecture),
        model_from_json json = Ok a /\ fs !! "model.h5" = Some blob /\
        weights_from_h5 a blob = Raise "CorruptArtifactError")).
Proof.
  unfold raises, load_model, py_open_read, load_weights.
  destruct (fs !! "model.json") as [json|] eqn:Ejson;
    cbn [mbind result_bind].
  2:{ split; [|split].
      - intros e. split.
        + intros [= <-]. left. split; reflexivity.
        + intros [[_ ->]|[(j & Hj & _)|[(j & a & Hj & _)|(j & b & a & Hj & _)]]];
            [reflexivity | discriminate..].
      - intros m. split; [discriminate|].
        intros (j & b & a & w & Hj & _). discriminate.
      - discriminate. }
  destruct (model_from_json json) as [a|e0] eqn:Ea; cbn [mbind result_bind].
  2:{ split; [|split].
      - intros e. split.
        + intros [= <-]. right. left. exists json. split; [reflexivity | exact Ea].
        + intros [[Hj _]|[(j & [= <-] & Hr)
                        |[(j & a & [= <-] & Ha & _)
                         |(j & b & a & [= <-] & Ha & _)]]];
            [discriminate | congruence..].
      - intros m. split; [discriminate|].
        intros (j & b & a & w & [= <-] & Ha & _). congruence.
      - intros [= ->]. exists json. split; [reflexivity|]. left. exact Ea. }
  cbn [model_arch model_compiled].
  destruct (fs !! "model.h5") as [blob|] eqn:Eblob; cbn [mbind result_bind].
  2:{ split; [|split].
      - intros e. split.
        + intros [= <-]. right. right. left. exists json, a.
          repeat split; assumption || reflexivity.
        + intros [[Hj _]|[(j & [= <-] & Hr)
                        |[(j & a' & _ & _ & _ & ->)
                         |(j & b & a' & _ & _ & Hb & _)]]];
            [discriminate | congruence | reflexivity | discriminate].
      - intros m. split; [discriminate|].
        intros (j & b & a' & w & _ & _ & Hb & _). discriminate.
      - discriminate. }
  destruct (weights_from_h5 a blob) as [w|e0] eqn:Ew; cbn [mbind result_bind].
  - split; [|split].
    + intros e. split; [discriminate|].
      intros [[Hj _]|[(j & [= <-] & Hr)
                      |[(j & a' & _ & _ & Hb & _)
                       |(j & b & a' & [= <-] & Ha & [= <-] & Hw)]]];
        [discriminate | congruence | discriminate | congruence].
    + intros m. unfold compile. cbn [model_arch model_weights]. split.
      * intros [= <-]. exists json, blob, a, w. repeat split; assumption.
      * intros (j & b & a' & w' & [= <-] & Ha & [= <-] & Hw & ->).
        congruence.
    + discriminate.
  - split; [|split].
    + intros e. split.
      * intros [= <-]. right. right. right. exists json, blob, a.
        repeat split; assumption || reflexivity.
      * intros [[Hj _]|[(j & [= <-] & Hr)
                        |[(j & a' & _ & _ & Hb & _)
                         |(j & b & a' & [= <-] & Ha & [= <-] & Hw)]]];
          [discriminate | congruence | discriminate | congruence].
    + intros m. split; [discriminate|].
      intros (j & b & a' & w' & [= <-] & Ha & [= <-] & Hw & _). congruence.
    + intros [= ->]. exists json. split; [reflexivity|]. right.
      exists blob, a. repeat split; assumption.
Qed.
End Persistence.

Lemma ref_json_roundtrip : @json_roundtrip ref_keras.
Proof. intros a. reflexivity. Qed.

Lemma strip_prefix_app (p s : string) : strip_prefix p (p +:+ s) = Some s.
Proof.
  induction p as [|a p IH]; [reflexivity|].
  simpl. rewrite Ascii.eqb_refl. exact IH.
Qed.

Lemma string_app_assoc (p q r : string) : (p +:+ q) +:+ r = p +:+ (q +:+ r).
Proof.
  induction p as [|a p IH]; [reflexivity|].
  change (String a ((p +:+ q) +:+ r) = String a (p +:+ (q +:+ r))).
  f_equal. exact IH.
Qed.

Lemma ref_h5_roundtrip : @h5_roundtrip ref_keras.
Proof.
  intros a w. cbn [weights_from_h5 weights_to_h5 ref_keras].
  unfold ref_weights_from_h5, ref_weights_to_h5.
  rewrite strip_prefix_app.
  rewrite <- (string_app_assoc a ";" w), strip_prefix_app.
  reflexivity.
Qed.

Lemma save_load_roundtrip_witness :
  exists m' : @keras_model ref_keras,
    @load_model ref_keras (@save_model ref_keras sample_model ∅) = Ok m' /\
    model_predict m' sample_tensor = model_predict sample_model sample_tensor /\
    @predict ref_imaging ref_keras small_rgb m'
    = @predict ref_imaging ref_keras small_rgb sample_model.
Proof.
  destruct (@save_load_roundtrip ref_imaging ref_keras
              ref_json_roundtrip ref_h5_roundtrip sample_model ∅)
    as (m' & Hload & _ & _ & Hscore & Hlabel).
  exists m'. split; [exact Hload|]. split; [apply Hscore | apply Hlabel].
Defined.

(** C9, counterexample.  With no artifact on disk [load_model] fails at
    [open('model.json')] with Python's [FileNotFoundError], and with the
    structure alone at the opening of "model.h5", with [FileNotFoundError]
    again; a structure file that is not JSON fails with the JSON decoder's
    error, a truncated weight file and weights saved for another structure
    with the errors of h5py and Keras.  In no case is the exception a
    CorruptArtifactError. *)
Lemma load_model_missing_artifact :
  (∅ : filesystem) !! "model.json" = None /\
  @load_model ref_keras ∅ = Raise "FileNotFoundError" /\
  @load_model ref_keras structure_only = Raise "FileNotFoundError" /\
  @load_model ref_keras broken_structure = Raise "JSONDecodeError" /\
  @load_model ref_keras truncated_weights = Raise "OSError" /\
  @load_model ref_keras mismatched_weights = Raise "ValueError" /\
  ~ raises (@load_model ref_keras ∅) "CorruptArtifactError" /\
  ~ raises (@load_model ref_keras structure_only) "CorruptArtifactError" /\
  ~ raises (@load_model ref_keras mismatched_weights) "CorruptArtifactError".
Proof.
  split; [reflexivity|]. split; [reflexivity|].
  assert (H1 : @load_model ref_keras structure_only = Raise "FileNotFoundError")
    by (vm_compute; reflexivity).
  assert (H2 : @load_model ref_keras mismatched_weights = Raise "ValueError")
    by (vm_compute; reflexivity).
  split; [exact H1|]. split; [vm_compute; reflexivity|].
  split; [vm_compute; reflexivity|]. split; [exact H2|].
  unfold raises. rewrite H1, H2. repeat split; discriminate.
Qed.

Lemma load_model_failures_witness :
  @load_model ref_keras ∅ = Raise "FileNotFoundError" /\
  @load_model ref_keras broken_structure = Raise "JSONDecodeError" /\
  @load_model ref_keras structure_only = Raise "FileNotFoundError" /\
  @load_model ref_keras truncated_weights = Raise "OSError" /\
  @load_model ref_keras mismatched_weights = Raise "ValueError" /\
  @load_model ref_keras (@save_model ref_keras sample_model structure_only)
  = Ok (@mk_model ref_keras "dense(1)" "abc"
          (Some (mk_compile "binary_crossentropy" "adam" ["accuracy"]))).
Proof.
  split.
  { apply (proj1 (@load_model_failures ref_keras ∅)).
    left. split; reflexivity. }
  split.
  { apply (proj1 (@load_model_failures ref_keras broken_structure)).
    right. left. exists "dense(1)". split; reflexivity. }
  split.
  { apply (proj1 (@load_model_failures ref_keras structure_only)).
    right. right. left. exists "{dense(1)", "dense(1)".
    repeat split; reflexivity. }
  split.
  { apply (proj1 (@load_model_failures ref_keras truncated_weights)).
    right. right. right. exists "{dense(1)", "HD", "dense(1)".
    repeat split; reflexivity. }
  split.
  { apply (proj1 (@load_model_failures ref_keras mismatched_weights)).
    right. right. right.
    exists "{dense(1)", (ref_weights_to_h5 "dense(2)" "xyz"), "dense(1)".
    repeat split; reflexivity. }
  apply (proj1 (proj2 (@load_model_failures ref_keras
                         (@save_model ref_keras sample_model structure_only)))).
  exists "{dense(1)", (ref_weights_to_h5 "dense(1)" "abc"), "dense(1)", "abc".
  repeat split; reflexivity.
Defined.

(** ** The data loader *)

Section Loader.
Context `{LoaderOps}.

Lemma flow_index_fields (it : DirectoryIterator) (g : rng) :
  it_generator (flow_index it g).1.2 = it_generator it /\
  it_args (flow_index it g).1.2 = it_args it /\
  it_samples (flow_index it g).1.2 = it_samples it.
Proof.
  unfold flow_index.
  destruct (if Nat.eqb (batch_index it) 0 then _ else _) as [ia g0].
  repeat split.
Qed.

(** With a seed, the batch does not depend on the state NumPy's global
    generator is in when [next] is called: the generator is reseeded. *)
Lemma next_seeded (it : DirectoryIterator) (s : Z) (g1 g2 : rng) :
  seed (it_args it) = Some s -> next it g1 = next it g2.
Proof.
  intros Hseed. unfold next, flow_index. rewrite Hseed. reflexivity.
Qed.

Lemma next_fields (it it' : DirectoryIterator) (g g' : rng) (b : batch) :
  next it g = Ok (b, it', g') ->
  it_generator it' = it_generator it /\ it_args it' = it_args it /\
  it_samples it' = it_samples it.
Proof.
  unfold next. pose proof (flow_index_fields it g) as Hf.
  destruct (flow_index it g) as [[indices it1] g1].
  destruct (transformed_samples it indices g1) as [r|e];
    cbn [mbind result_bind]; [|discriminate].
  intros [= _ <- _]. exact Hf.
Qed.

Lemma batches_ambient (k : nat) : forall (it : DirectoryIterator)
  (ambient1 ambient2 : nat -> rng) (s : Z),
  seed (it_args it) = Some s ->
  batches k ambient1 it = batches k ambient2 it.
Proof.
  induction k as [|k IH]; intros it ambient1 ambient2 s Hseed;
    [reflexivity|].
  cbn [batches]. rewrite (next_seeded it s (ambient1 0%nat) (ambient2 0%nat))
    by exact Hseed.
  destruct (next it (ambient2 0%nat)) as [[[b it'] g']|e] eqn:Enext;
    cbn [mbind result_bind]; [|reflexivity].
  destruct (next_fields _ _ _ _ _ Enext) as (_ & Hargs & _).
  rewrite (IH it' (fun i => ambient1 (S i)) (fun i => ambient2 (S i)) s)
    by (rewrite Hargs; exact Hseed).
  reflexivity.
Qed.

Lemma load_data_inv (d : disk) (train val : DirectoryIterator) :
  load_data d = Ok (train, val) ->
  exists train_classes val_classes : class_dirs,
    d !! "dataset/train" = Some train_classes /\
    d !! "dataset/val" = Some val_classes /\
    train = mk_iter train_datagen train_flow (list_samples train_classes)
              0 0 [] /\
    val = mk_iter val_datagen val_flow (list_samples val_classes) 0 0 [].
Proof.
  unfold load_data, flow_from_directory. cbn [directory train_flow val_flow].
  destruct (d !! "dataset/train") as [c1|]; [|discriminate].
  cbn [mbind result_bind].
  destruct (d !! "dataset/val") as [c2|]; [|discriminate].
  cbn [mbind result_bind]. intros [= <- <-]. exists c1, c2. repeat split.
Qed.

(** C7. Two runs of [load_data] on the same directory contents produce the
    same stream of (batch, labels) pairs, in the same order, whatever the
    state of NumPy's global random generator before each call in either
    run: the fixed seed 42 decides every shuffle and every augmentation. *)
Theorem load_data_deterministic (d : disk)
  (train1 val1 train2 val2 : DirectoryIterator) :
  load_data d = Ok (train1, val1) ->
  load_data d = Ok (train2, val2) ->
  forall (k : nat) (ambient1 ambient2 : nat -> rng),
    batches k ambient1 train1 = batches k ambient2 train2 /\
    batches k ambient1 val1 = batches k ambient2 val2.
Proof.
  intros Hrun1 Hrun2 k ambient1 ambient2.
  rewrite Hrun1 in Hrun2. injection Hrun2 as <- <-.
  destruct (load_data_inv d train1 val1 Hrun1)
    as (c1 & c2 & _ & _ & -> & ->).
  split; apply (batches_ambient k _ _ _ 42%Z); reflexivity.
Qed.

Lemma flow_index_with_directory (dir : string) (it : DirectoryIterator)
  (g : rng) :
  flow_index (iter_with_directory dir it) g
  = ((flow_index it g).1.1,
     iter_with_directory dir (flow_index it g).1.2,
     (flow_index it g).2).
Proof.
  unfold flow_index, iter_with_directory, with_directory.
  cbn [it_generator it_args it_samples batch_index total_batches_seen
       index_array batch_size seed shuffle].
  destruct (if Nat.eqb (batch_index it) 0 then _ else _) as [ia g0].
  reflexivity.
Qed.

Lemma transformed_samples_with_directory (dir : string)
  (it : DirectoryIterator) (indices : list nat) : forall g : rng,
  transformed_samples (iter_with_directory dir it) indices g
  = transformed_samples it indices g.
Proof.
  induction indices as [|j rest IH]; intros g; [reflexivity|].
  cbn [transformed_samples iter_with_directory with_directory it_samples
       it_args it_generator color_mode target_size].
  destruct (it_samples it !! j) as [[fname cls]|]; [|reflexivity].
  destruct (load_img fname (color_mode (it_args it))
              (target_size (it_args it))) as [x|e];
    cbn [mbind result_bind]; [|reflexivity].
  destruct (random_transform (it_generator it) x g) as [x' g'].
  change (mk_iter (it_generator it)
            (mk_flow dir (target_size (it_args it)) (color_mode (it_args it))
               (batch_size (it_args it)) (class_mode (it_args it))
               (shuffle (it_args it)) (seed (it_args it)))
            (it_samples it) (batch_index it) (total_batches_seen it)
            (index_array it))
    with (iter_with_directory dir it).
  rewrite IH. reflexivity.
Qed.

Lemma batches_with_directory (dir : string) (k : nat) :
  forall (it : DirectoryIterator) (ambient : nat -> rng),
  batches k ambient (iter_with_directory dir it) = batches k ambient it.
Proof.
  induction k as [|k IH]; intros it ambient; [reflexivity|].
  cbn [batches]. unfold next.
  rewrite flow_index_with_directory.
  destruct (flow_index it (ambient 0%nat)) as [[indices it1] g1].
  cbn [fst snd]. rewrite transformed_samples_with_directory.
  destruct (transformed_samples it indices g1) as [r|e];
    cbn [mbind result_bind]; [|reflexivity].
  rewrite IH. reflexivity.
Qed.

Lemma reachable_fields (it0 it : DirectoryIterator) :
  reachable it0 it ->
  it_generator it = it_generator it0 /\ it_args it = it_args it0 /\
  it_samples it = it_samples it0.
Proof.
  intros Hreach. induction Hreach as [|it g b it' g' _ IH Hnext].
  - repeat split.
  - destruct (next_fields _ _ _ _ _ Hnext) as (-> & -> & ->). exact IH.
Qed.

(** The random part of the augmentation under the generator of the source:
    the shear is drawn from [-0.2, 0.2], then the number that decides the
    flip. *)
Lemma random_transform_train (x : ndarray Q) (g : rng) :
  random_transform train_datagen x g
  = (let shear_draw := np_random_uniform (- (2 # 10)) (2 # 10) g in
     let flip_draw := np_random_random shear_draw.2 in
     let sheared :=
       if Qeq_bool shear_draw.1 0 then x else apply_shear shear_draw.1 x in
     (if Qltb flip_draw.1 (1 # 2) then flip_axis sheared else sheared,
      flip_draw.2)).
Proof.
  unfold random_transform. cbn [shear_range horizontal_flip train_datagen].
  change (Qeq_bool (2 # 10) 0) with false. cbv iota zeta.
  destruct (np_random_uniform (- (2 # 10)) (2 # 10) g) as [s g1].
  cbn [fst snd]. destruct (np_random_random g1) as [u g2]. reflexivity.
Qed.

(** C10. The validation stream [load_data] returns carries the settings of
    the training stream, which are those of the source: rescale 1/255, shear
    range 0.2, horizontal flip; target size 24 x 24, grayscale, batches of
    32, binary labels, shuffling on, seed 42.  Only the directory differs:
    the validation stream is the stream the training settings give on
    "dataset/val".  The settings are what each stream runs on, in every
    state it passes through: every image is sheared by a draw from
    [-0.2, 0.2], flipped when a second draw is below 1/2, and multiplied by
    1/255; every pass is shuffled by the permutation drawn after seeding
    with 42 plus the number of batches produced so far, so that no batch
    depends on the state of the global generator.  On directories with the
    same contents the two streams are the same. *)
Theorem validation_stream_same_configuration :
  forall (d : disk) (train val : DirectoryIterator),
    load_data d = Ok (train, val) ->
    it_generator train = mk_datagen (1 / 255) (2 # 10) true /\
    it_generator val = it_generator train /\
    it_args train
    = mk_flow "dataset/train" (24, 24)%nat "grayscale" 32 "binary" true
              (Some 42%Z) /\
    it_args val = with_directory "dataset/val" (it_args train) /\
    flow_from_directory d (it_generator train)
      (with_directory "dataset/val" (it_args train)) = Ok val /\
    (forall it0 it : DirectoryIterator,
        it0 = train \/ it0 = val -> reachable it0 it ->
        (forall (x : ndarray Q) (g : rng),
            random_transform (it_generator it) x g
            = (let shear_draw := np_random_uniform (- (2 # 10)) (2 # 10) g in
               let flip_draw := np_random_random shear_draw.2 in
               let sheared :=
                 if Qeq_bool shear_draw.1 0 then x
                 else apply_shear shear_draw.1 x in
               (if Qltb flip_draw.1 (1 # 2) then flip_axis sheared
                else sheared,
                flip_draw.2))) /\
        (forall x : ndarray Q,
            standardize (it_generator it) x
            = mk_ndarray (shape x)
                (map (fun v => Qred (v * (1 / 255))) (data x))) /\
        (forall g : rng,
            batch_index it = 0%nat ->
            pass_order it g
            = (np_random_permutation (length (it_samples it0))
                 (np_random_seed (42 + Z.of_nat (total_batches_seen it)))).1) /\
        (forall g1 g2 : rng, next it g1 = next it g2)) /\
    (d !! "dataset/val" = d !! "dataset/train" ->
     val = iter_with_directory "dataset/val" train /\
     forall (k : nat) (ambient1 ambient2 : nat -> rng),
       batches k ambient1 val = batches k ambient2 train).
Proof.
  intros d train val Hload.
  destruct (load_data_inv d train val Hload)
    as (c1 & c2 & Hc1 & Hc2 & -> & ->).
  cbn [it_generator it_args].
  split; [reflexivity|]. split; [reflexivity|]. split; [reflexivity|].
  split; [reflexivity|]. split.
  { unfold flow_from_directory. cbn [directory with_directory train_flow].
    rewrite Hc2. reflexivity. }
  split.
  - intros it0 it Hit0 Hreach.
    destruct (reachable_fields it0 it Hreach) as (Hgen & Hargs & Hsamples).
    assert (Hcfg : it_generator it0 = train_datagen /\
                   shuffle (it_args it0) = true /\
                   seed (it_args it0) = Some 42%Z)
      by (destruct Hit0 as [-> | ->]; repeat split).
    destruct Hcfg as (Hgen0 & Hshuffle & Hseed).
    rewrite Hgen, Hgen0. split; [apply random_transform_train|].
    split; [reflexivity|]. split.
    + intros g Hstart. unfold pass_order.
      rewrite Hargs, Hseed, Hshuffle, Hstart, Hsamples. reflexivity.
    + intros g1 g2. apply (next_seeded it 42%Z). rewrite Hargs. exact Hseed.
  - intros Hsame. rewrite Hc1, Hc2 in Hsame. injection Hsame as ->.
    split; [reflexivity|]. intros k ambient1 ambient2.
    change (mk_iter val_datagen val_flow (list_samples c1) 0 0 [])
      with (iter_with_directory "dataset/val"
              (mk_iter train_datagen train_flow (list_samples c1) 0 0 [])).
    rewrite batches_with_directory.
    apply (batches_ambient k _ _ _ 42%Z). reflexivity.
Qed.
End Loader.

Section LoaderBatches.
Context `{LoaderOps}.

Lemma next_flow_index (it it' : DirectoryIterator) (g g' : rng) (b : batch) :
  next it g = Ok (b, it', g') ->
  it' = (flow_index it g).1.2 /\
  transformed_samples it (flow_index it g).1.1 (flow_index it g).2
  = Ok (b, g').
Proof.
  unfold next. destruct (flow_index it g) as [[indices it1] g1].
  cbn [fst snd].
  destruct (transformed_samples it indices g1) as [[b1 g2]|e];
    cbn [mbind result_bind fst snd]; [|discriminate].
  intros [= <- <- <-]. split; reflexivity.
Qed.

(** One turn of the index generator: the batch is the next [batch_size]
    entries of a permutation of the sample indices. *)
Lemma flow_index_batch (it0 it : DirectoryIterator) (g : rng) :
  permutation_law ->
  shuffle (it_args it0) = true ->
  iterator_invariant it0 it ->
  exists ia : list nat,
    Permutation ia (seq 0 (length (it_samples it0))) /\
    (flow_index it g).1.1
    = take (batch_size (it_args it0))
        (drop (batch_index it * batch_size (it_args it0)) ia) /\
    iterator_invariant it0 (flow_index it g).1.2.
Proof.
  intros Hperm Hshuffle (Hgen & Hargs & Hsamples & Hcase).
  unfold flow_index. rewrite Hsamples, Hargs, Hshuffle.
  set (n := length (it_samples it0)). set (bs := batch_size (it_args it0)).
  set (gs := match seed (it_args it0) with
             | Some s => np_random_seed (s + Z.of_nat (total_batches_seen it))
             | None => g
             end).
  destruct (Nat.eqb_spec (batch_index it) 0) as [Hzero|Hpos].
  - pose proof (Hperm n gs) as Hp.
    destruct (np_random_permutation n gs) as [ia g0]. cbn [fst] in Hp.
    exists ia. split; [exact Hp|]. rewrite Hzero. cbn [Nat.mul].
    assert (Hcur : (if Nat.eqb n 0 then 0 else 0 mod n)%nat = 0%nat)
      by (destruct (Nat.eqb n 0); [reflexivity | apply Nat.Div0.mod_0_l]).
    rewrite Hcur. cbn [fst snd]. split; [reflexivity|].
    unfold iterator_invariant.
    cbn [it_generator it_args it_samples batch_index index_array].
    repeat (split; [first [assumption | reflexivity]|]).
    destruct (Nat.ltb_spec (0 + bs) n) as [Hlt|Hge]; [right|left; reflexivity].
    fold n bs. split; [lia | exact Hp].
  - destruct Hcase as [Hzero|[Hlt Hp]]; [contradiction|]. fold n bs in Hlt, Hp.
    exists (index_array it). split; [exact Hp|].
    destruct (Nat.eqb_spec n 0) as [Hn|Hn]; [lia|].
    rewrite (Nat.mod_small _ _ Hlt). cbn [fst snd]. split; [reflexivity|].
    unfold iterator_invariant.
    cbn [it_generator it_args it_samples batch_index index_array].
    repeat (split; [first [assumption | reflexivity]|]).
    destruct (Nat.ltb_spec (batch_index it * bs + bs) n) as [Hlt'|Hge];
      [right|left; reflexivity].
    fold n bs. split; [simpl; lia | exact Hp].
Qed.

Lemma reachable_invariant (it0 it : DirectoryIterator) :
  permutation_law ->
  shuffle (it_args it0) = true -> batch_index it0 = 0%nat ->
  reachable it0 it -> iterator_invariant it0 it.
Proof.
  intros Hperm Hshuffle Hstart Hreach.
  induction Hreach as [|it g b it' g' _ IH Hnext].
  - unfold iterator_invariant. auto.
  - destruct (next_flow_index _ _ _ _ _ Hnext) as [-> _].
    destruct (flow_index_batch it0 it g Hperm Hshuffle IH) as (_ & _ & _ & Hinv).
    exact Hinv.
Qed.

Lemma flow_index_order (it : DirectoryIterator) (g : rng) :
  exists g' : rng,
    flow_index it g
    = (let n := length (it_samples it) in
       let bs := batch_size (it_args it) in
       let current_index :=
         if Nat.eqb n 0 then 0%nat else ((batch_index it * bs) mod n)%nat in
       (take bs (drop current_index (pass_order it g)),
        mk_iter (it_generator it) (it_args it) (it_samples it)
                (if (current_index + bs <? n)%nat
                 then S (batch_index it) else 0%nat)
                (S (total_batches_seen it)) (pass_order it g),
        g')).
Proof.
  unfold flow_index, pass_order.
  destruct (Nat.eqb (batch_index it) 0); [destruct (shuffle (it_args it))|].
  - destruct (np_random_permutation _ _) as [ia g0]. eexists. reflexivity.
  - eexists. reflexivity.
  - eexists. reflexivity.
Qed.

Lemma rescale_unit (l : list Q) :
  Forall grey_level l ->
  Forall unit_interval (map (fun v => Qred (v * (1 / 255))) l).
Proof.
  intros Hall. apply List.Forall_map.
  eapply List.Forall_impl; [|exact Hall].
  intros v [Hlo Hhi]. unfold unit_interval. rewrite Qred_correct.
  change (1 / 255)%Q with (1 # 255)%Q. split; lra.
Qed.

(** One image of a batch: what [random_transform] and [standardize] make
    of a file that loads. *)
Lemma augmented_image_step (fname : string) (x0 : ndarray Q) (g : rng) :
  uniform_law -> load_img_law -> shear_law -> flip_law ->
  load_img fname "grayscale" (IMG_SIZE, IMG_SIZE) = Ok x0 ->
  augmented_image fname g
    (standardize train_datagen (random_transform train_datagen x0 g).1)
    (random_transform train_datagen x0 g).2.
Proof.
  intros Hunif Hload Hshear Hflip Hx0.
  rewrite random_transform_train. cbv zeta. cbn [fst snd].
  exists x0. split; [exact Hx0|]. cbv zeta.
  destruct (Hunif (- (2 # 10))%Q (2 # 10)%Q g ltac:(discriminate))
    as [Hlo Hhi].
  set (s := (np_random_uniform (- (2 # 10)) (2 # 10) g).1) in *.
  set (u := (np_random_random (np_random_uniform (- (2 # 10)) (2 # 10) g).2).1).
  destruct (Hload fname (IMG_SIZE, IMG_SIZE) x0 Hx0) as [Hshape Hrange].
  cbn [fst snd] in Hshape.
  set (sheared := if Qeq_bool s 0 then x0 else apply_shear s x0).
  assert (Hsheared : shape sheared = [IMG_SIZE; IMG_SIZE; 1%nat] /\
                     Forall grey_level (data sheared)).
  { unfold sheared. destruct (Qeq_bool s 0); [split; assumption|].
    destruct (Hshear s x0) as [-> Hr]. split; [exact Hshape | exact (Hr Hrange)]. }
  set (flipped := if Qltb u (1 # 2) then flip_axis sheared else sheared).
  assert (Hflipped : shape flipped = [IMG_SIZE; IMG_SIZE; 1%nat] /\
                     Forall grey_level (data flipped)).
  { unfold flipped. destruct (Qltb u (1 # 2)); [|exact Hsheared].
    destruct (Hflip sheared) as [-> Hr].
    split; [exact (proj1 Hsheared) | exact (Hr (proj2 Hsheared))]. }
  split; [exact Hlo|]. split; [exact Hhi|].
  split; [reflexivity|]. split; [reflexivity|].
  split; [exact (proj1 Hflipped)|].
  apply rescale_unit. exact (proj2 Hflipped).
Qed.

Lemma batch_holds_length (samples : list (string * nat)) :
  forall (indices : list nat) (g : rng) (xs : list (ndarray Q)) (ys : list Q)
         (g' : rng),
    batch_holds samples indices g xs ys g' ->
    length xs = length indices /\ length ys = length indices.
Proof.
  induction indices as [|j indices IH]; intros g xs ys g' Hb.
  - destruct xs, ys; try contradiction. split; reflexivity.
  - destruct xs as [|x xs], ys as [|y ys]; try contradiction.
    destruct Hb as (fname & cls & g1 & _ & _ & _ & Hrest).
    destruct (IH _ _ _ _ Hrest) as [H1 H2]. cbn [length].
    rewrite H1, H2. split; reflexivity.
Qed.

Lemma transformed_samples_holds (it : DirectoryIterator) :
  uniform_law -> load_img_law -> shear_law -> flip_law ->
  it_generator it = train_datagen ->
  color_mode (it_args it) = "grayscale" ->
  target_size (it_args it) = (IMG_SIZE, IMG_SIZE) ->
  Forall (fun s => succeeds (load_img s.1 "grayscale" (IMG_SIZE, IMG_SIZE)))
         (it_samples it) ->
  forall (indices : list nat) (g : rng),
    Forall (fun j => (j < length (it_samples it))%nat) indices ->
    exists (b : batch) (g' : rng),
      transformed_samples it indices g = Ok (b, g') /\
      batch_holds (it_samples it) indices g b.1 b.2 g'.
Proof.
  intros Hunif Hload Hshear Hflip Hgen Hmode Hsize Hfiles.
  induction indices as [|j rest IH]; intros g Hbound.
  - exists ([], []), g. split; reflexivity.
  - inversion Hbound as [|? ? Hj Hrest]; subst.
    destruct (lookup_lt_is_Some_2 _ _ Hj) as [[fname cls] Hlookup].
    pose proof (Forall_lookup_1 _ _ _ _ Hfiles Hlookup) as [x0 Hx0].
    cbn [fst] in Hx0.
    cbn [transformed_samples]. rewrite Hlookup, Hmode, Hsize, Hx0, Hgen.
    cbn [mbind result_bind].
    pose proof (augmented_image_step fname x0 g Hunif Hload Hshear Hflip Hx0)
      as Himage.
    destruct (random_transform train_datagen x0 g) as [x' g1].
    cbn [fst snd] in Himage.
    destruct (IH g1 Hrest) as ([xs ys] & g' & Hts & Hof).
    rewrite Hts. cbn [mbind result_bind].
    eexists (_, _), g'. split; [reflexivity|].
    cbn [fst snd batch_holds]. exists fname, cls, g1.
    split; [exact Hlookup|]. split; [exact Himage|].
    split; [reflexivity | exact Hof].
Qed.

Lemma list_samples_class (classes : class_dirs) (j : nat) (fname : string)
  (cls : nat) :
  list_samples classes !! j = Some (fname, cls) ->
  exists files : list string, classes !! cls = Some files /\ In fname files.
Proof.
  intros Hlookup. apply list_elem_of_lookup_2 in Hlookup.
  unfold list_samples in Hlookup.
  apply list_elem_of_join in Hlookup as (l & Hin & Hl).
  apply elem_of_lookup_imap_1 in Hl as (k & files & -> & Hfiles).
  apply list_elem_of_In, List.in_map_iff in Hin as (f & [= <- <-] & Hf).
  exists files. split; assumption.
Qed.

Lemma two_classes (classes : class_dirs) (cls : nat) (files : list string) :
  classes !! cls = Some files -> length classes = 2%nat ->
  cls = 0%nat \/ cls = 1%nat.
Proof.
  intros Hcls Hlen. apply lookup_lt_Some in Hcls. lia.
Qed.

Lemma next_batch (it0 : DirectoryIterator) (dir : string) :
  permutation_law -> uniform_law -> load_img_law -> shear_law -> flip_law ->
  it_generator it0 = train_datagen ->
  it_args it0 = with_directory dir train_flow ->
  batch_index it0 = 0%nat ->
  Forall (fun s => succeeds (load_img s.1 "grayscale" (IMG_SIZE, IMG_SIZE)))
         (it_samples it0) ->
  forall it : DirectoryIterator, reachable it0 it ->
  forall g : rng,
  exists (b : batch) (it' : DirectoryIterator) (g' gs : rng),
    next it g = Ok (b, it', g') /\
    Permutation (pass_order it g) (seq 0 (length (it_samples it0))) /\
    batch_holds (it_samples it0)
      (take 32 (drop (batch_index it * 32) (pass_order it g))) gs b.1 b.2 g' /\
    length b.1 = (32 `min` (length (it_samples it0) - batch_index it * 32))%nat /\
    length b.2 = length b.1 /\
    index_array it' = pass_order it g /\
    batch_index it'
    = (if (batch_index it * 32 + 32 <? length (it_samples it0))%nat
       then S (batch_index it) else 0%nat).
Proof.
  intros Hperm Hunif Hload Hshear Hflip Hgen Hargs Hstart Hfiles it Hreach g.
  assert (Hshuffle : shuffle (it_args it0) = true) by (rewrite Hargs; reflexivity).
  pose proof (reachable_invariant it0 it Hperm Hshuffle Hstart Hreach) as Hinv.
  destruct Hinv as (Hgen' & Hargs' & Hsamples' & Hcase).
  assert (Hbs : batch_size (it_args it0) = 32%nat) by (rewrite Hargs; reflexivity).
  rewrite Hbs in Hcase.
  set (n := length (it_samples it0)) in *.
  assert (Horder : Permutation (pass_order it g) (seq 0 n)).
  { unfold pass_order. rewrite Hargs', Hshuffle, Hsamples'. fold n.
    destruct Hcase as [-> | [Hlt Hp]]; [apply Hperm|].
    destruct (Nat.eqb_spec (batch_index it) 0); [apply Hperm | exact Hp]. }
  assert (Hcur : (if Nat.eqb n 0 then 0 else (batch_index it * 32) mod n)%nat
                 = (batch_index it * 32)%nat).
  { destruct Hcase as [-> | [Hlt _]].
    - destruct (Nat.eqb n 0); [reflexivity | apply Nat.Div0.mod_0_l].
    - destruct (Nat.eqb_spec n 0); [lia | apply Nat.mod_small, Hlt]. }
  destruct (flow_index_order it g) as [g1 Hflow]. cbv zeta in Hflow.
  rewrite Hargs', Hbs, Hsamples' in Hflow. fold n in Hflow.
  rewrite Hcur in Hflow.
  destruct (transformed_samples_holds it Hunif Hload Hshear Hflip) with
    (indices := take 32 (drop (batch_index it * 32) (pass_order it g)))
    (g := g1) as (b & g' & Hts & Hof).
  - rewrite Hgen'. exact Hgen.
  - rewrite Hargs', Hargs. reflexivity.
  - rewrite Hargs', Hargs. reflexivity.
  - rewrite Hsamples'. exact Hfiles.
  - apply Forall_take, Forall_drop. rewrite Hsamples'.
    apply List.Forall_forall. intros j Hj.
    apply list_elem_of_In in Hj. rewrite Horder in Hj.
    apply elem_of_seq in Hj. fold n. lia.
  - unfold next. rewrite Hflow, Hts. cbn [mbind result_bind fst snd].
    eexists b, _, g', g1. split; [reflexivity|].
    split; [exact Horder|].
    rewrite Hsamples' in Hof. split; [exact Hof|].
    destruct (batch_holds_length _ _ _ _ _ _ Hof) as [Hl1 Hl2].
    rewrite length_take, length_drop in Hl1, Hl2.
    rewrite (Permutation_length Horder), length_seq in Hl1, Hl2.
    split; [exact Hl1|]. split; [rewrite Hl1; exact Hl2|].
    cbn [index_array batch_index]. split; reflexivity.
Qed.

(** C6, as amended.  Each stream of [load_data] produces batches of at
    most 32 images: exactly 32 while more than 32 images of the pass are
    left, and the remaining ones in the last batch of a pass, after which a
    new pass begins.  A batch holds the next images of the pass in its
    shuffled order, and every image of it is a file of the directory that
    was loaded as grayscale at 24 x 24, sheared by a random amount within
    [-0.2, 0.2], flipped horizontally or not on a draw of its own, and
    rescaled by 1/255 to [0, 1]; its label is the index of its class
    directory, 0 or 1 when there are two. *)
Theorem load_data_batches :
  permutation_law -> uniform_law -> load_img_law -> shear_law -> flip_law ->
  forall (d : disk) (train val it0 : DirectoryIterator),
    load_data d = Ok (train, val) ->
    it0 = train \/ it0 = val ->
    Forall (fun s => succeeds (load_img s.1 "grayscale" (IMG_SIZE, IMG_SIZE)))
           (it_samples it0) ->
    (exists classes : class_dirs,
        d !! directory (it_args it0) = Some classes /\
        forall (j : nat) (fname : string) (cls : nat),
          it_samples it0 !! j = Some (fname, cls) ->
          (exists files : list string,
              classes !! cls = Some files /\ In fname files) /\
          (length classes = 2%nat -> cls = 0%nat \/ cls = 1%nat)) /\
    (forall it : DirectoryIterator, reachable it0 it ->
     forall g : rng,
     exists (b : batch) (it' : DirectoryIterator) (g' gs : rng),
       next it g = Ok (b, it', g') /\
       Permutation (pass_order it g) (seq 0 (length (it_samples it0))) /\
       batch_holds (it_samples it0)
         (take 32 (drop (batch_index it * 32) (pass_order it g)))
         gs b.1 b.2 g' /\
       length b.1
       = (32 `min` (length (it_samples it0) - batch_index it * 32))%nat /\
       length b.2 = length b.1 /\
       (length b.1 <= 32)%nat /\
       ((0 < length (it_samples it0))%nat -> (1 <= length b.1)%nat) /\
       ((batch_index it * 32 + 32 < length (it_samples it0))%nat ->
        length b.1 = 32%nat /\ batch_index it' = S (batch_index it) /\
        forall g2 : rng, pass_order it' g2 = pass_order it g) /\
       ((length (it_samples it0) <= batch_index it * 32 + 32)%nat ->
        batch_index it' = 0%nat)).
Proof.
  intros Hperm Hunif Hload Himg Hflip d train val it0 Hdata Hit0 Hfiles.
  destruct (load_data_inv d train val Hdata)
    as (c1 & c2 & Hc1 & Hc2 & Htrain & Hval).
  assert (Hcfg : exists (dir : string) (classes : class_dirs),
             d !! dir = Some classes /\
             it_generator it0 = train_datagen /\
             it_args it0 = with_directory dir train_flow /\
             batch_index it0 = 0%nat /\
             it_samples it0 = list_samples classes).
  { destruct Hit0 as [-> | ->].
    - exists "dataset/train", c1. rewrite Htrain. repeat split. exact Hc1.
    - exists "dataset/val", c2. rewrite Hval. repeat split. exact Hc2. }
  destruct Hcfg as (dir & classes & Hdir & Hgen & Hargs & Hstart & Hsamples).
  split.
  - exists classes. rewrite Hargs, Hsamples. cbn [directory with_directory].
    split; [exact Hdir|]. intros j fname cls Hj.
    destruct (list_samples_class classes j fname cls Hj) as (files & Hcls & Hin).
    split; [exists files; split; assumption|].
    apply (two_classes classes cls files Hcls).
  - intros it Hreach g.
    destruct (next_batch it0 dir Hperm Hunif Hload Himg Hflip
                Hgen Hargs Hstart Hfiles it Hreach g)
      as (b & it' & g' & gs & Hnext & Horder & Hof & Hl1 & Hl2 & Hia & Hbi).
    exists b, it', g', gs.
    split; [exact Hnext|]. split; [exact Horder|]. split; [exact Hof|].
    split; [exact Hl1|]. split; [exact Hl2|].
    assert (Hshuffle : shuffle (it_args it0) = true)
      by (rewrite Hargs; reflexivity).
    destruct (reachable_invariant it0 it Hperm Hshuffle Hstart Hreach)
      as (_ & _ & _ & Hcase).
    rewrite Hargs in Hcase. cbn [batch_size with_directory train_flow] in Hcase.
    set (n := length (it_samples it0)) in *.
    split; [lia|]. split; [destruct Hcase; lia|]. split.
    + intros Hlt. split; [lia|].
      destruct (Nat.ltb_spec (batch_index it * 32 + 32) n) as [_|Hge]; [|lia].
      split; [exact Hbi|]. intros g2. unfold pass_order at 1.
      rewrite Hbi. cbn [Nat.eqb]. exact Hia.
    + intros Hge.
      destruct (Nat.ltb_spec (batch_index it * 32 + 32) n) as [Hlt|_]; [lia|].
      exact Hbi.
Qed.
End LoaderBatches.

(** ** The data loader on the reference generator *)

Lemma ref_permutation_law : @permutation_law ref_loader.
Proof.
  intros n g. cbn [np_random_permutation ref_loader fst]. unfold ref_permutation.
  cbn [fst]. rewrite Permutation_app_comm, take_drop. reflexivity.
Qed.

Lemma unit_draw_bounds (g : Z) : (0 <= unit_draw g)%Q /\ (unit_draw g <= 1)%Q.
Proof.
  unfold unit_draw, Qle. simpl.
  pose proof (Z.mod_pos_bound g 1000). lia.
Qed.

Lemma ref_uniform_law : @uniform_law ref_loader.
Proof.
  intros lo hi g Hle. cbn [np_random_uniform ref_loader]. unfold ref_uniform.
  cbn [fst]. rewrite Qred_correct.
  destruct (unit_draw_bounds g) as [H0 H1].
  set (t := unit_draw g) in *. split; nra.
Qed.

Lemma ref_load_img_ok (contents mode : string) (size : nat * nat) :
  contents <> "" -> succeeds (ref_load_img contents mode size).
Proof.
  intros Hne. unfold ref_load_img. destruct size as [rows cols].
  destruct contents as [|a rest]; [contradiction|].
  cbn [bytes_of list_ascii_of_string map length Nat.eqb].
  eexists. reflexivity.
Qed.

Lemma grey_level_0 : grey_level 0.
Proof. unfold grey_level. split; discriminate. Qed.

Lemma bytes_grey_levels (contents : string) :
  Forall grey_level (map inject_Z (bytes_of contents)).
Proof.
  unfold bytes_of. rewrite List.map_map. apply List.Forall_map.
  apply List.Forall_forall. intros a _.
  pose proof (Ascii.N_ascii_bounded a) as Hbound.
  unfold grey_level, Qle, inject_Z. simpl. lia.
Qed.

Lemma ref_load_img_law : @load_img_law ref_loader.
Proof.
  intros fname [rows cols] x. cbn [load_img ref_loader]. unfold ref_load_img.
  destruct (Nat.eqb (length (bytes_of fname)) 0); [discriminate|].
  intros [= <-]. cbn [shape data fst snd]. split; [reflexivity|].
  apply Forall_gather; [apply grey_level_0 | apply bytes_grey_levels].
Qed.

Lemma remap_columns_law (x : ndarray Q) (col : nat -> nat -> nat -> nat) :
  shape (remap_columns x col) = shape x /\
  (Forall grey_level (data x) -> Forall grey_level (data (remap_columns x col))).
Proof.
  unfold remap_columns.
  destruct (shape x) as [|rows [|cols [|[|[|k]] [|? ?]]]] eqn:Hshape;
    try (split; [exact Hshape | intros Hx; exact Hx]).
  cbn [shape data]. split; [reflexivity|].
  intros Hx. apply Forall_gather; [apply grey_level_0 | exact Hx].
Qed.

Lemma ref_shear_law : @shear_law ref_loader.
Proof. intros s x. apply remap_columns_law. Qed.

Lemma ref_flip_law : @flip_law ref_loader.
Proof. intros x. apply remap_columns_law. Qed.

Lemma load_data_small_disk : load_data small_disk = Ok (small_train, small_val).
Proof. vm_compute. reflexivity. Defined.

Lemma load_data_forty_disk : load_data forty_disk = Ok (forty_train, forty_val).
Proof. vm_compute. reflexivity. Defined.

(** C6, counterexample.  With forty images in the training directory the
    batches have 32, 8, 32, 8, ... images: not every batch has exactly 32. *)
Lemma forty_images_batches :
  load_data forty_disk = Ok (forty_train, forty_val) /\
  @batch_sizes ref_loader 4 (fun _ => 0%Z) forty_train = Some [32; 8; 32; 8]%nat /\
  @batch_sizes ref_loader 4 (fun _ => 0%Z) forty_val = Some [32; 8; 32; 8]%nat.
Proof.
  split; [exact load_data_forty_disk|]. split; vm_compute; reflexivity.
Qed.

Lemma load_data_batches_witness :
  exists (b : batch) (it' : DirectoryIterator) (g' gs : Z),
    @next ref_loader small_train 0%Z = Ok (b, it', g') /\
    length b.1 = 3%nat /\ length b.2 = 3%nat /\
    @batch_holds ref_loader (it_samples small_train)
      (take 32 (drop 0 (@pass_order ref_loader small_train 0%Z)))
      gs b.1 b.2 g' /\
    batch_index it' = 0%nat.
Proof.
  destruct (@load_data_batches ref_loader ref_permutation_law ref_uniform_law
              ref_load_img_law ref_shear_law ref_flip_law
              small_disk small_train small_val small_train)
    as [_ Hnext].
  - exact load_data_small_disk.
  - left. reflexivity.
  - repeat constructor; apply ref_load_img_ok; discriminate.
  - destruct (Hnext small_train (reach_start _) 0%Z)
      as (b & it' & g' & gs & Hn & _ & Hof & Hl1 & Hl2 & _ & _ & _ & Hlast).
    exists b, it', g', gs. split; [exact Hn|].
    split; [exact Hl1|]. split; [rewrite Hl2; exact Hl1|].
    split; [exact Hof|]. apply Hlast. vm_compute. lia.
Defined.

Lemma load_data_deterministic_witness :
  @batches ref_loader 3 (fun _ => 0%Z) small_train
  = @batches ref_loader 3 (fun i => Z.of_nat i + 7)%Z small_train /\
  @batches ref_loader 3 (fun _ => 0%Z) small_val
  = @batches ref_loader 3 (fun i => Z.of_nat i + 7)%Z small_val.
Proof.
  apply (@load_data_deterministic ref_loader small_disk
           small_train small_val small_train small_val);
    exact load_data_small_disk.
Defined.

Lemma validation_stream_same_configuration_witness :
  it_generator forty_val = mk_datagen (1 / 255) (2 # 10) true /\
  it_args forty_val
  = mk_flow "dataset/val" (24, 24)%nat "grayscale" 32 "binary" true
            (Some 42%Z) /\
  @pass_order ref_loader forty_val 7%Z = (ref_permutation 40 42%Z).1 /\
  @next ref_loader forty_val 0%Z = @next ref_loader forty_val 7%Z /\
  forty_val = iter_with_directory "dataset/val" forty_train /\
  @batches ref_loader 2 (fun _ => 0%Z) forty_val
  = @batches ref_loader 2 (fun _ => 5%Z) forty_train.
Proof.
  destruct (@validation_stream_same_configuration ref_loader
              forty_disk forty_train forty_val load_data_forty_disk)
    as (Hgen & Hgen' & Hargs & Hargs' & _ & Hrun & Hsame).
  destruct (Hrun forty_val forty_val (or_intror eq_refl) (reach_start _))
    as (_ & _ & Horder & Hseeded).
  destruct (Hsame eq_refl) as [Hval Hbatches].
  split; [rewrite Hgen'; exact Hgen|].
  split; [rewrite Hargs', Hargs; reflexivity|].
  split; [exact (Horder 7%Z eq_refl)|].
  split; [apply Hseeded|].
  split; [exact Hval | apply Hbatches].
Defined.

(** * Further properties of the code *)

(** ** The decision policy *)

(** X1. The policy is monotone: a higher score never moves the answer
    towards 'closed'. *)
Theorem predict_label_monotone (p q : Q) :
  (p <= q)%Q -> (label_rank (predict_label p) <= label_rank (predict_label q))%nat.
Proof.
  intros Hpq.
  destruct (predict_label_cases p) as [[Hp ->]|[[Hp ->]|(Hp1 & Hp2 & ->)]];
    destruct (predict_label_cases q) as [[Hq ->]|[[Hq ->]|(Hq1 & Hq2 & ->)]];
    cbn; try lia; exfalso; lra.
Qed.

Lemma predict_label_monotone_witness :
  (label_rank (predict_label (5 # 100)) <= label_rank (predict_label (95 # 100)))%nat.
Proof. apply predict_label_monotone. unfold Qle. simpl. lia. Defined.

Lemma two_pow_pos (k : nat) : (0 < 2 ^ Z.of_nat k)%Z.
Proof. apply Z.pow_pos_nonneg; lia. Qed.

Lemma float32_on_grid (p : Q) : is_float32 p -> f32_grid p.
Proof.
  intros (m & k & Hm & [[Hk Hp]|Hp]).
  - pose proof (two_pow_pos k) as Hpos.
    destruct (Nat.le_gt_cases k 24) as [H24|H24].
    + right; right. exists (m * 2 ^ Z.of_nat (24 - k))%Z.
      rewrite Hp. unfold Qeq. cbn [Qnum Qden].
      rewrite Z2Pos.id by exact Hpos.
      change (Z.pos 16777216) with (2 ^ 24)%Z.
      replace 24%Z with (Z.of_nat (24 - k) + Z.of_nat k)%Z at 1 by lia.
      rewrite Z.pow_add_r by lia. ring.
    + destruct (Nat.le_gt_cases k 27) as [H27|H27].
      * right; left. split.
        -- rewrite Hp. unfold Qlt. cbn [Qnum Qden].
           rewrite Z2Pos.id by exact Hpos.
           assert (2 ^ 25 <= 2 ^ Z.of_nat k)%Z
             by (apply Z.pow_le_mono_r; lia).
           change (2 ^ 24)%Z with 16777216%Z in Hm.
           change (2 ^ 25)%Z with 33554432%Z in H. lia.
        -- exists (m * 2 ^ Z.of_nat (27 - k))%Z.
           rewrite Hp. unfold Qeq. cbn [Qnum Qden].
           rewrite Z2Pos.id by exact Hpos.
           change (Z.pos 134217728) with (2 ^ 27)%Z.
           replace 27%Z with (Z.of_nat (27 - k) + Z.of_nat k)%Z at 1 by lia.
           rewrite Z.pow_add_r by lia. ring.
      * left. rewrite Hp. unfold Qlt. cbn [Qnum Qden].
        rewrite Z2Pos.id by exact Hpos.
        assert (2 ^ 28 <= 2 ^ Z.of_nat k)%Z by (apply Z.pow_le_mono_r; lia).
        change (2 ^ 24)%Z with 16777216%Z in Hm.
        change (2 ^ 28)%Z with 268435456%Z in H. lia.
  - right; right. exists (m * 2 ^ Z.of_nat k * 2 ^ 24)%Z.
    rewrite Hp. unfold Qeq, inject_Z. cbn [Qnum Qden].
    change (Z.pos 16777216) with (2 ^ 24)%Z. ring.
Qed.

(** X2. On a [float32] score, comparing with the literals 0.1 and 0.9 as
    NumPy does (rounded to [float32]) gives the same label as comparing with
    the real numbers 0.1 and 0.9: rounding the thresholds moves no [float32]
    across them. *)
Theorem float32_decisions_exact (p : Q) :
  is_float32 p -> predict_label_f32 p = predict_label p.
Proof.
  intros Hp. apply float32_thresholds_agree, float32_on_grid, Hp.
Qed.

Lemma float32_decisions_exact_witness :
  predict_label_f32 f32_0_1 = predict_label f32_0_1 /\
  predict_label_f32 f32_0_9 = predict_label f32_0_9.
Proof.
  split; apply float32_decisions_exact.
  - exists 13421773%Z, 27%nat. split; [reflexivity|].
    left. split; [lia | reflexivity].
  - exists 15099494%Z, 24%nat. split; [reflexivity|].
    left. split; [lia | reflexivity].
Defined.

(** ** Grayscale conversion *)

(** X3. The luminance [convert('L')] gives a pixel lies between the smallest
    and the largest of its three channels; a grey pixel keeps its value. *)
Theorem luma_between_channels (r g b : Z) :
  (Z.min r (Z.min g b) <= luma (r, g, b) <= Z.max r (Z.max g b))%Z /\
  luma (r, r, r) = r.
Proof.
  split; [|apply luma_gray].
  unfold luma. rewrite Z.shiftr_div_pow2 by lia.
  change (2 ^ 16)%Z with 65536%Z. split.
  - apply Z.div_le_lower_bound; lia.
  - apply Z.lt_succ_r. apply Z.div_lt_upper_bound; lia.
Qed.

(** ** The inference path, end to end *)

Section InferencePath.
Context `{ImagingOps} `{KerasOps}.

(** X5. The tensor [predict] feeds the network is quantised: each of its
    values is [k / 255] for a byte [k], because the image is resampled as
    8-bit data before it is scaled. *)
Theorem predict_tensor_quantised :
  imresize_total ->
  forall img : ndarray Z,
    rgb_array img ->
    exists t : ndarray Q,
      predict_tensor img = Ok t /\
      Forall (fun q => exists k : Z, (0 <= k <= 255)%Z /\ q = div255 k) (data t).
Proof.
  intros Himresize img Himg.
  destruct (predict_tensor_rgb img Himresize Himg) as (a & _ & _ & Hbytes & Ht).
  eexists. split; [exact Ht|]. cbn [data].
  apply List.Forall_map. eapply List.Forall_impl; [|exact Hbytes].
  intros k Hk. exists k. split; [exact Hk | reflexivity].
Qed.

(** X7. [predict] does not check the channel count.  Whatever the third
    axis, an array that holds at least [3 * W * H] bytes is accepted, and
    only its first [3 * W * H] bytes are used, regrouped in threes: an RGBA
    frame is read as if its bytes were packed RGB. *)
Theorem predict_reads_packed_rgb (img : ndarray Z) (h w : nat)
  (more : list nat) :
  shape img = h :: w :: more -> (length more <= 1)%nat ->
  (3 * w * h <= length (data img))%nat ->
  predict_tensor img
  = predict_tensor (mk_ndarray [h; w; 3%nat] (take (3 * w * h) (data img))).
Proof.
  intros Hshape Hmore Hlen.
  unfold predict_tensor, Image_fromarray_RGB. rewrite Hshape.
  cbn [shape data length]. set (n := (3 * w * h)%nat) in *.
  destruct (Nat.ltb_spec 1 (length more)) as [Hlt|_]; [lia|].
  replace (1 <? 1)%nat with false by reflexivity.
  destruct (Nat.ltb_spec (length (data img)) n) as [Hlt|_]; [lia|].
  rewrite length_take.
  destruct (Nat.ltb_spec (n `min` length (data img)) n) as [Hlt|_]; [lia|].
  rewrite take_take. replace (n `min` n)%nat with n by lia.
  reflexivity.
Qed.

(** X8. [load_image] takes the samples to be bytes: on a single-channel
    24 x 24 file the result is within [0, 1] exactly when every sample is
    within 0 .. 255 (a 16-bit image comes out above 1). *)
Theorem load_image_range_needs_bytes :
  transform_resize_same_size ->
  forall (fs : filesystem) (filename : string) (g : list Z),
    length g = 576%nat ->
    Image_open_array fs filename = Ok (mk_ndarray [24; 24]%nat g) ->
    exists t : ndarray Q,
      load_image fs filename = Ok t /\
      (Forall unit_interval (data t) <-> Forall uint8 g).
Proof.
  intros Hsame fs filename g Hlen Hopen.
  rewrite (load_image_single_channel fs filename g Hsame Hlen Hopen).
  eexists. split; [reflexivity|]. cbn [scaled_tensor data].
  rewrite List.Forall_map. split.
  - intros Hall. eapply List.Forall_impl; [|exact Hall].
    intros v [Hlo Hhi]. unfold div255 in Hlo, Hhi.
    rewrite Qred_correct in Hlo, Hhi.
    unfold Qdiv, Qle, Qmult, Qinv, inject_Z in Hlo, Hhi. simpl in Hlo, Hhi.
    unfold uint8. lia.
  - intros Hall. eapply List.Forall_impl; [|exact Hall]. apply div255_unit.
Qed.
End InferencePath.

(** ** Uniformly coloured frames *)

Lemma solid_bytes_length (n : nat) (r g b : Z) :
  length (mjoin (replicate n [r; g; b])) = (3 * n)%nat.
Proof.
  induction n as [|n IH]; [reflexivity|].
  change (mjoin (replicate (S n) [r; g; b]))
    with (r :: g :: b :: mjoin (replicate n [r; g; b])).
  cbn [length]. rewrite IH. lia.
Qed.

Lemma rgb_pixels_solid (n : nat) (r g b : Z) :
  rgb_pixels (mjoin (replicate n [r; g; b])) = replicate n (r, g, b).
Proof.
  induction n as [|n IH]; [reflexivity|].
  change (mjoin (replicate (S n) [r; g; b]))
    with (r :: g :: b :: mjoin (replicate n [r; g; b])).
  cbn [rgb_pixels]. rewrite IH. reflexivity.
Qed.

Lemma map_replicate {A B} (f : A -> B) (n : nat) (x : A) :
  map f (replicate n x) = replicate n (f x).
Proof.
  induction n as [|n IH]; [reflexivity|].
  rewrite !replicate_S. cbn [map]. rewrite IH. reflexivity.
Qed.

(** X6. A uniformly coloured frame of any size is prepared to a constant
    tensor: the luminance of the colour divided by 255, whatever the
    resolution (all 0.0 for black, all 1.0 for white). *)
Theorem predict_tensor_solid `{ImagingOps} (h w : nat) (r g b : Z) :
  imresize_constant ->
  (0 < h)%nat -> (0 < w)%nat -> uint8 r -> uint8 g -> uint8 b ->
  predict_tensor (solid_rgb h w r g b)
  = Ok (constant_tensor (div255 (luma (r, g, b)))).
Proof.
  intros Hconst Hh Hw Hr Hg Hb. unfold predict_tensor.
  rewrite (fromarray_rgb_array _ h w)
    by (try reflexivity; unfold solid_rgb; cbn [data];
        rewrite solid_bytes_length; lia).
  cbn [mbind result_bind]. unfold convert_L, solid_rgb.
  cbn [im_height im_width im_pixels data].
  rewrite rgb_pixels_solid, map_replicate.
  unfold IMG_SIZE.
  rewrite Hconst by (try lia; apply luma_uint8; assumption).
  cbn [mbind result_bind]. unfold astype_float32_div255. cbn [shape data].
  rewrite map_replicate.
  rewrite reshape_ok by (cbn [data]; rewrite length_replicate; reflexivity).
  reflexivity.
Qed.

Lemma nearest_lt (i n m : nat) : (i < m)%nat -> (0 < n)%nat -> (nearest i n m < n)%nat.
Proof.
  intros Hi Hn. unfold nearest.
  apply Nat.Div0.div_lt_upper_bound. nia.
Qed.

Lemma nth_replicate_lt {A} (c q : nat) (v d : A) :
  (q < c)%nat -> nth q (replicate c v) d = v.
Proof.
  revert q. induction c as [|c IH]; intros q Hq; [lia|].
  destruct q as [|q]; [reflexivity|]. simpl. apply IH. lia.
Qed.

Lemma gather_constant {A} (d v : A) (src : list A) (index : nat -> nat)
  (n : nat) :
  (forall i, (i < n)%nat -> nth (index i) src d = v) ->
  gather d src index n = replicate n v.
Proof.
  intros Hall. unfold gather. apply (List.nth_ext _ _ d d).
  - rewrite length_map, length_seq, length_replicate. reflexivity.
  - intros i Hi. rewrite length_map, length_seq in Hi.
    rewrite (List.nth_indep _ d (nth (index 0%nat) src d))
      by (rewrite length_map, length_seq; assumption).
    rewrite (List.map_nth (fun idx => nth (index idx) src d)).
    rewrite List.seq_nth by assumption. rewrite Nat.add_0_l.
    rewrite Hall by assumption. symmetry. apply nth_replicate_lt, Hi.
Qed.

Lemma ref_imresize_constant : @imresize_constant ref_imaging.
Proof.
  intros h w rows cols v Hh Hw Hr Hc _. cbn [imresize ref_imaging].
  rewrite ref_imresize_eq by assumption. do 2 f_equal.
  apply gather_constant. intros i Hi.
  apply nth_replicate_lt.
  assert (Hrow : (nearest (i / cols) h rows < h)%nat).
  { apply nearest_lt; [|exact Hh].
    apply Nat.Div0.div_lt_upper_bound. lia. }
  assert (Hcol : (nearest (i mod cols) w cols < w)%nat).
  { apply nearest_lt; [|exact Hw]. apply Nat.mod_upper_bound. lia. }
  nia.
Qed.

Lemma predict_tensor_solid_witness :
  @predict_tensor ref_imaging (solid_rgb 100 100 0 0 0) = Ok (constant_tensor 0) /\
  @predict_tensor ref_imaging (solid_rgb 7 5 255 255 255) = Ok (constant_tensor 1).
Proof.
  split.
  - apply (@predict_tensor_solid ref_imaging 100 100 0 0 0 ref_imresize_constant);
      unfold uint8; lia.
  - apply (@predict_tensor_solid ref_imaging 7 5 255 255 255
             ref_imresize_constant); unfold uint8; lia.
Defined.

Lemma predict_tensor_quantised_witness :
  exists t : ndarray Q,
    @predict_tensor ref_imaging small_rgb = Ok t /\
    Forall (fun q => exists k : Z, (0 <= k <= 255)%Z /\ q = div255 k) (data t).
Proof.
  exact (@predict_tensor_quantised ref_imaging ref_imresize_total
           small_rgb small_rgb_is_rgb_array).
Defined.

Lemma predict_reads_packed_rgb_witness :
  @predict_tensor ref_imaging rgba_1x2
  = @predict_tensor ref_imaging
      (mk_ndarray [1; 2; 3]%nat [10; 20; 30; 255; 40; 50]%Z).
Proof.
  apply (@predict_reads_packed_rgb ref_imaging rgba_1x2 1 2 [4%nat]).
  - reflexivity.
  - simpl. lia.
  - simpl. lia.
Defined.

Lemma load_image_range_needs_bytes_witness :
  exists t : ndarray Q,
    @load_image ref_imaging deep_eye_files "eye.png" = Ok t /\
    (Forall unit_interval (data t) <-> Forall uint8 (replicate 576 200%Z)).
Proof.
  apply (@load_image_range_needs_bytes ref_imaging
           ref_transform_resize_same_size deep_eye_files "eye.png").
  - reflexivity.
  - vm_compute. reflexivity.
Defined.

(** ** The two artifacts on disk *)

Section Artifacts.
Context `{KerasOps}.

(** X9. [save_model] writes exactly two files: afterwards "model.json" holds
    the structure and "model.h5" the weights, whatever was there before, and
    every other path is as it was. *)
Theorem save_model_writes_two_files (m : keras_model) (fs : filesystem) :
  save_model m fs !! "model.json" = Some (to_json (model_arch m)) /\
  save_model m fs !! "model.h5"
  = Some (weights_to_h5 (model_arch m) (model_weights m)) /\
  (forall path : string,
      path <> "model.json" -> path <> "model.h5" ->
      save_model m fs !! path = fs !! path).
Proof.
  unfold save_model. split; [|split].
  - rewrite lookup_insert_ne by discriminate. apply lookup_insert_eq.
  - apply lookup_insert_eq.
  - intros path Hjson Hh5.
    rewrite lookup_insert_ne by congruence.
    apply lookup_insert_ne. congruence.
Qed.

Lemma save_model_twice (m1 m2 : keras_model) (fs : filesystem) :
  save_model m2 (save_model m1 fs) = save_model m2 fs.
Proof.
  unfold save_model. apply map_eq. intros path.
  destruct (decide (path = "model.h5")) as [->|Hh5].
  - rewrite !lookup_insert_eq. reflexivity.
  - rewrite !(lookup_insert_ne _ "model.h5") by congruence.
    destruct (decide (path = "model.json")) as [->|Hjson].
    + rewrite !lookup_insert_eq. reflexivity.
    + rewrite !lookup_insert_ne by congruence. reflexivity.
Qed.

(** X10. The last save wins: saving one model over another leaves the disk
    exactly as if only the second had been saved (so saving twice is saving
    once), and loading then returns the second model's structure and
    weights, compiled with the fixed loss, optimizer and metric whatever the
    saved model was compiled with. *)
Theorem save_model_last_write_wins :
  json_roundtrip -> h5_roundtrip ->
  forall (m1 m2 : keras_model) (fs : filesystem),
    save_model m2 (save_model m1 fs) = save_model m2 fs /\
    save_model m2 (save_model m2 fs) = save_model m2 fs /\
    exists m' : keras_model,
      load_model (save_model m2 (save_model m1 fs)) = Ok m' /\
      model_arch m' = model_arch m2 /\
      model_weights m' = model_weights m2 /\
      model_compiled m'
      = Some (mk_compile "binary_crossentropy" "adam" ["accuracy"]).
Proof.
  intros Hjson Hh5 m1 m2 fs.
  split; [apply save_model_twice|]. split; [apply save_model_twice|].
  rewrite save_model_twice. eexists.
  split; [apply load_model_after_save; assumption|].
  repeat split.
Qed.

(** X11. [load_model] reads the two artifacts and nothing else: on two disks
    that agree on "model.json" and "model.h5" it gives the same result, so
    writing any other file does not change what is loaded. *)
Theorem load_model_reads_two_files (fs1 fs2 : filesystem) :
  fs1 !! "model.json" = fs2 !! "model.json" ->
  fs1 !! "model.h5" = fs2 !! "model.h5" ->
  load_model fs1 = load_model fs2 /\
  forall (path contents : string),
    path <> "model.json" -> path <> "model.h5" ->
    load_model (<[path := contents]> fs1) = load_model fs2.
Proof.
  intros Hjson Hh5.
  assert (Hsame : forall fa fb : filesystem,
             fa !! "model.json" = fb !! "model.json" ->
             fa !! "model.h5" = fb !! "model.h5" ->
             load_model fa = load_model fb).
  { intros fa fb Ha Hb. unfold load_model, py_open_read, load_weights.
    rewrite Ha, Hb. reflexivity. }
  split; [apply Hsame; assumption|].
  intros path contents Hp1 Hp2. apply Hsame.
  - rewrite lookup_insert_ne by congruence. exact Hjson.
  - rewrite lookup_insert_ne by congruence. exact Hh5.
Qed.
End Artifacts.

Lemma save_model_writes_two_files_witness :
  @save_model ref_keras sample_model notes_files !! "notes.txt" = Some "keep" /\
  @save_model ref_keras sample_model notes_files !! "model.json"
  = Some "{dense(1)".
Proof.
  destruct (@save_model_writes_two_files ref_keras sample_model notes_files)
    as (Hjson & _ & Hframe).
  split.
  - rewrite Hframe by discriminate. reflexivity.
  - exact Hjson.
Defined.

Lemma save_model_last_write_wins_witness :
  @save_model ref_keras other_model (@save_model ref_keras sample_model ∅)
  = @save_model ref_keras other_model ∅ /\
  exists m' : @keras_model ref_keras,
    @load_model ref_keras
      (@save_model ref_keras other_model (@save_model ref_keras sample_model ∅))
    = Ok m' /\
    model_weights m' = model_weights other_model.
Proof.
  destruct (@save_model_last_write_wins ref_keras ref_json_roundtrip
              ref_h5_roundtrip sample_model other_model ∅)
    as (Hdisk & _ & m' & Hload & _ & Hweights & _).
  split; [exact Hdisk|]. exists m'. split; assumption.
Defined.

Lemma load_model_reads_two_files_witness :
  @load_model ref_keras (@save_model ref_keras sample_model notes_files)
  = @load_model ref_keras (@save_model ref_keras sample_model ∅).
Proof.
  refine (proj1 (@load_model_reads_two_files ref_keras
                   (@save_model ref_keras sample_model notes_files)
                   (@save_model ref_keras sample_model ∅) _ _)).
  - unfold save_model.
    rewrite !(lookup_insert_ne _ "model.h5" "model.json") by discriminate.
    rewrite !lookup_insert_eq. reflexivity.
  - unfold save_model. rewrite !lookup_insert_eq. reflexivity.
Defined.

(** ** The data loader: directories, empty data, one pass over the data *)

(** X12. [load_data] succeeds exactly when both "dataset/train" and
    "dataset/val" exist (empty directories included), and otherwise fails
    with [FileNotFoundError]; both iterators start at batch 0 with no batch
    seen. *)
Theorem load_data_needs_both_directories (d : disk) :
  (succeeds (load_data d) <->
   is_Some (d !! "dataset/train") /\ is_Some (d !! "dataset/val")) /\
  (~ succeeds (load_data d) -> load_data d = Raise "FileNotFoundError") /\
  (forall train val : DirectoryIterator,
      load_data d = Ok (train, val) ->
      batch_index train = 0%nat /\ total_batches_seen train = 0%nat /\
      batch_index val = 0%nat /\ total_batches_seen val = 0%nat).
Proof.
  unfold load_data, flow_from_directory, succeeds.
  cbn [directory train_flow val_flow].
  destruct (d !! "dataset/train") as [c1|]; cbn [mbind result_bind].
  - destruct (d !! "dataset/val") as [c2|]; cbn [mbind result_bind].
    + split; [|split].
      * split; [intros _; split; eexists; reflexivity|].
        intros _. eexists. reflexivity.
      * intros Hno. exfalso. apply Hno. eexists. reflexivity.
      * intros train val [= <- <-]. repeat split.
    + split; [|split].
      * split; [intros [a Ha]; discriminate|].
        intros [_ [c Hc]]. discriminate.
      * reflexivity.
      * intros train val Heq. discriminate.
  - split; [|split].
    + split; [intros [a Ha]; discriminate|].
      intros [[c Hc] _]. discriminate.
    + reflexivity.
    + intros train val Heq. discriminate.
Qed.

Section LoaderPasses.
Context `{LoaderOps}.

Lemma empty_batches (k : nat) : forall (it : DirectoryIterator)
  (ambient : nat -> rng),
  permutation_law ->
  it_samples it = [] -> batch_index it = 0%nat ->
  shuffle (it_args it) = true ->
  batches k ambient it = Ok (replicate k ([], [])).
Proof.
  induction k as [|k IH]; intros it ambient Hperm Hsamples Hstart Hshuffle;
    [reflexivity|].
  cbn [batches]. unfold next, flow_index.
  rewrite Hsamples, Hstart, Hshuffle. cbn [length Nat.eqb].
  set (gs := match seed (it_args it) with
             | Some s => np_random_seed (s + Z.of_nat (total_batches_seen it))
             | None => ambient 0%nat
             end).
  pose proof (Hperm 0%nat gs) as Hp.
  destruct (np_random_permutation 0 gs) as [ia g0]. cbn [fst seq] in Hp.
  apply Permutation_nil_r in Hp. subst ia.
  rewrite drop_nil, take_nil.
  destruct (Nat.ltb_spec (0 + batch_size (it_args it)) 0) as [Hlt|_]; [lia|].
  cbn [transformed_samples mbind result_bind fst snd].
  rewrite IH by (try assumption; reflexivity).
  reflexivity.
Qed.

(** X13. A directory without images is not an error: each stream then
    produces empty batches, one after the other, for ever. *)
Theorem empty_directory_batches :
  permutation_law ->
  forall (d : disk) (train val it0 : DirectoryIterator),
    load_data d = Ok (train, val) ->
    it0 = train \/ it0 = val ->
    it_samples it0 = [] ->
    forall (k : nat) (ambient : nat -> rng),
      batches k ambient it0 = Ok (replicate k ([], [])).
Proof.
  intros Hperm d train val it0 Hload Hit0 Hempty k ambient.
  destruct (load_data_inv d train val Hload) as (c1 & c2 & _ & _ & -> & ->).
  destruct Hit0 as [-> | ->]; apply empty_batches; auto.
Qed.

Lemma transformed_samples_labels (it : DirectoryIterator) :
  forall (indices : list nat) (g g' : rng) (b : batch),
    transformed_samples it indices g = Ok (b, g') ->
    length b.1 = length indices /\
    b.2 = map (label_at (it_samples it)) indices.
Proof.
  induction indices as [|j rest IH]; intros g g' b Hts.
  - cbn in Hts. injection Hts as <- _. split; reflexivity.
  - cbn [transformed_samples] in Hts. cbn [map].
    destruct (it_samples it !! j) as [[fname cls]|] eqn:Hj; [|discriminate].
    destruct (load_img fname _ _) as [x|e]; cbn [mbind result_bind] in Hts;
      [|discriminate].
    destruct (random_transform _ x g) as [x' g1].
    destruct (transformed_samples it rest g1) as [[[xs ys] g2]|e] eqn:Hrest;
      cbn [mbind result_bind] in Hts; [|discriminate].
    injection Hts as <- _.
    destruct (IH _ _ _ Hrest) as [Hlen Hlabels]. cbn [fst snd] in *.
    split; [cbn [length]; rewrite Hlen; reflexivity|].
    unfold label_at at 1. rewrite Hj, Hlabels. reflexivity.
Qed.

Lemma transformed_samples_succeeds (it : DirectoryIterator) :
  Forall (fun s => succeeds (load_img s.1 (color_mode (it_args it))
                               (target_size (it_args it))))
         (it_samples it) ->
  forall (indices : list nat) (g : rng),
    Forall (fun j => (j < length (it_samples it))%nat) indices ->
    succeeds (transformed_samples it indices g).
Proof.
  intros Hfiles. induction indices as [|j rest IH]; intros g Hbound.
  - eexists. reflexivity.
  - inversion Hbound as [|? ? Hj Hrest]; subst.
    destruct (lookup_lt_is_Some_2 _ _ Hj) as [[fname cls] Hlookup].
    pose proof (Forall_lookup_1 _ _ _ _ Hfiles Hlookup) as [x0 Hx0].
    cbn [fst] in Hx0. cbn [transformed_samples]. rewrite Hlookup, Hx0.
    cbn [mbind result_bind].
    destruct (random_transform _ x0 g) as [x' g1].
    destruct (IH g1 Hrest) as [[[xs ys] g2] Hts]. rewrite Hts.
    cbn [mbind result_bind]. eexists. reflexivity.
Qed.

Lemma label_at_seq (samples : list (string * nat)) :
  map (label_at samples) (seq 0 (length samples)) = map sample_label samples.
Proof.
  induction samples as [|s samples IH]; [reflexivity|].
  cbn [length seq map]. f_equal.
  - unfold label_at, sample_label. cbn. destruct s. reflexivity.
  - rewrite <- List.seq_shift, List.map_map. exact IH.
Qed.

Lemma advance_reachable (it0 : DirectoryIterator) (k : nat) :
  forall (it it' : DirectoryIterator) (ambient : nat -> rng),
    reachable it0 it -> advance k ambient it = Ok it' -> reachable it0 it'.
Proof.
  induction k as [|k IH]; intros it it' ambient Hreach Hadv.
  - cbn in Hadv. injection Hadv as <-. exact Hreach.
  - cbn [advance] in Hadv.
    destruct (next it (ambient 0%nat)) as [[[b it1] g1]|e] eqn:Hnext;
      cbn [mbind result_bind] in Hadv; [|discriminate].
    apply (IH it1 it' _ (reach_next it0 it _ b it1 g1 Hreach Hnext) Hadv).
Qed.
End LoaderPasses.

Section LoaderPassCoverage.
Context `{LoaderOps}.

Lemma batches_S (k : nat) (ambient : nat -> rng) (it : DirectoryIterator) :
  batches (S k) ambient it
  = (r ← next it (ambient 0%nat);
     let '(b, it', _) := r in
     bs ← batches k (fun i => ambient (S i)) it';
     Ok (b :: bs)).
Proof. reflexivity. Qed.

Lemma advance_S (k : nat) (ambient : nat -> rng) (it : DirectoryIterator) :
  advance (S k) ambient it
  = (r ← next it (ambient 0%nat);
     let '(_, it', _) := r in
     advance k (fun i => ambient (S i)) it').
Proof. reflexivity. Qed.

(** From batch [b] of a pass to its end: [S r] more batches, which hold the
    samples the pass order lists from position [b * batch_size] on. *)
Lemma pass_rest (r : nat) : forall (it : DirectoryIterator)
  (ambient : nat -> rng),
  let n := length (it_samples it) in
  let bs := batch_size (it_args it) in
  let order := pass_order it (ambient 0%nat) in
  Forall (fun s => succeeds (load_img s.1 (color_mode (it_args it))
                               (target_size (it_args it))))
         (it_samples it) ->
  Permutation order (seq 0 n) ->
  ((r + batch_index it) * bs < n)%nat ->
  (n <= (S r + batch_index it) * bs)%nat ->
  exists (bl : list batch) (it_end : DirectoryIterator),
    batches (S r) ambient it = Ok bl /\
    advance (S r) ambient it = Ok it_end /\
    batch_index it_end = 0%nat /\
    mjoin (map snd bl)
    = map (label_at (it_samples it)) (drop (batch_index it * bs) order) /\
    length (mjoin (map fst bl)) = (n - batch_index it * bs)%nat.
Proof.
  induction r as [|r IH]; intros it ambient n bs order Hfiles Hperm Hlow Hhigh.
  - (* the last batch of the pass *)
    destruct (flow_index_order it (ambient 0%nat)) as [g1 Hflow].
    fold n bs order in Hflow. cbv zeta in Hflow.
    assert (Hn : n <> 0%nat) by lia.
    destruct (Nat.eqb_spec n 0) as [|_]; [contradiction|].
    rewrite Nat.mod_small in Hflow by lia.
    destruct (Nat.ltb_spec (batch_index it * bs + bs) n) as [Hlt|_]; [lia|].
    assert (Hlen : length order = n)
      by (rewrite (Permutation_length Hperm), length_seq; reflexivity).
    rewrite (take_ge (drop _ order)) in Hflow
      by (rewrite length_drop, Hlen; lia).
    destruct (transformed_samples_succeeds it Hfiles
                (drop (batch_index it * bs) order) g1) as [[b1 g2] Hts].
    { apply Forall_drop. apply List.Forall_forall. intros j Hj.
      apply list_elem_of_In in Hj. rewrite Hperm in Hj.
      apply elem_of_seq in Hj. fold n. lia. }
    destruct (transformed_samples_labels it _ _ _ _ Hts) as [Hl1 Hl2].
    cbn [batches advance]. unfold next. rewrite Hflow, Hts.
    cbn [mbind result_bind fst snd].
    eexists _, _. split; [reflexivity|]. split; [reflexivity|].
    cbn [batch_index map]. split; [reflexivity|].
    change (mjoin [b1.2]) with (app b1.2 []).
    change (mjoin [b1.1]) with (app b1.1 []).
    rewrite !app_nil_r, Hl1, Hl2, length_drop, Hlen.
    split; reflexivity.
  - (* a full batch, then the rest *)
    destruct (flow_index_order it (ambient 0%nat)) as [g1 Hflow].
    fold n bs order in Hflow. cbv zeta in Hflow.
    assert (Hn : n <> 0%nat) by lia.
    destruct (Nat.eqb_spec n 0) as [|_]; [contradiction|].
    rewrite Nat.mod_small in Hflow by lia.
    destruct (Nat.ltb_spec (batch_index it * bs + bs) n) as [_|Hge]; [|lia].
    assert (Hlen : length order = n)
      by (rewrite (Permutation_length Hperm), length_seq; reflexivity).
    destruct (transformed_samples_succeeds it Hfiles
                (take bs (drop (batch_index it * bs) order)) g1)
      as [[b1 g2] Hts].
    { apply Forall_take, Forall_drop. apply List.Forall_forall. intros j Hj.
      apply list_elem_of_In in Hj. rewrite Hperm in Hj.
      apply elem_of_seq in Hj. fold n. lia. }
    destruct (transformed_samples_labels it _ _ _ _ Hts) as [Hl1 Hl2].
    set (it1 := mk_iter (it_generator it) (it_args it) (it_samples it)
                  (S (batch_index it)) (S (total_batches_seen it)) order)
      in Hflow.
    destruct (IH it1 (fun i => ambient (S i))) as (bl & it_end & Hb & Ha & Hend & Hlabels & Hcount).
    + exact Hfiles.
    + exact Hperm.
    + cbn [it1 batch_index it_args it_samples]. fold n bs. lia.
    + cbn [it1 batch_index it_args it_samples]. fold n bs. lia.
    + cbn [it1 batch_index it_args it_samples pass_order index_array Nat.eqb]
        in Hlabels, Hcount.
      fold n bs in Hlabels, Hcount.
      rewrite batches_S, advance_S. unfold next. rewrite Hflow, Hts.
      cbn [mbind result_bind fst snd]. rewrite Hb, Ha.
      cbn [mbind result_bind].
      eexists _, _. split; [reflexivity|]. split; [reflexivity|].
      split; [exact Hend|].
      change (mjoin (map snd (b1 :: bl))) with (app b1.2 (mjoin (map snd bl))).
      change (mjoin (map fst (b1 :: bl))) with (app b1.1 (mjoin (map fst bl))).
      rewrite Hlabels, Hl2, length_app, Hl1, Hcount.
      rewrite length_take, length_drop, Hlen.
      split; [|lia].
      rewrite <- List.map_app. f_equal.
      replace (S (batch_index it) * bs)%nat
        with (batch_index it * bs + bs)%nat by lia.
      rewrite <- drop_drop. apply take_drop.
Qed.

Lemma steps_per_pass_bounds (n bs : nat) :
  (0 < n)%nat -> (0 < bs)%nat ->
  exists r : nat, steps_per_pass n bs = S r /\
                  (r * bs < n)%nat /\ (n <= S r * bs)%nat.
Proof.
  intros Hn Hbs. exists ((n - 1) / bs)%nat. unfold steps_per_pass.
  replace (n + bs - 1)%nat with ((n - 1) + 1 * bs)%nat by lia.
  rewrite Nat.div_add by lia.
  pose proof (Nat.Div0.mul_div_le (n - 1) bs).
  pose proof (Nat.mul_succ_div_gt (n - 1) bs ltac:(lia)).
  repeat split; lia.
Qed.

(** X14. One pass over the data visits every image exactly once.  From the
    start of a pass, the next [ceil(n / 32)] batches together hold [n]
    images, their labels are the labels of the [n] files in some order, and
    after them the iterator is at the start of the next pass. *)
Theorem pass_covers_dataset :
  permutation_law ->
  forall (d : disk) (train val it0 : DirectoryIterator),
    load_data d = Ok (train, val) ->
    it0 = train \/ it0 = val ->
    Forall (fun s => succeeds (load_img s.1 "grayscale" (IMG_SIZE, IMG_SIZE)))
           (it_samples it0) ->
    (0 < length (it_samples it0))%nat ->
    forall it : DirectoryIterator,
      reachable it0 it -> batch_index it = 0%nat ->
      forall ambient : nat -> rng,
      exists (bl : list batch) (it_end : DirectoryIterator),
        batches (steps_per_pass (length (it_samples it0)) 32) ambient it
        = Ok bl /\
        advance (steps_per_pass (length (it_samples it0)) 32) ambient it
        = Ok it_end /\
        reachable it0 it_end /\ batch_index it_end = 0%nat /\
        Permutation (mjoin (map snd bl)) (map sample_label (it_samples it0)) /\
        length (mjoin (map fst bl)) = length (it_samples it0).
Proof.
  intros Hperm d train val it0 Hload Hit0 Hfiles Hn it Hreach Hstart ambient.
  assert (Hcfg : it_generator it0 = train_datagen /\
                 (exists dir, it_args it0 = with_directory dir train_flow) /\
                 batch_index it0 = 0%nat).
  { destruct (load_data_inv d train val Hload) as (c1 & c2 & _ & _ & -> & ->).
    destruct Hit0 as [-> | ->]; (split; [reflexivity|]);
      (split; [|reflexivity]).
    - exists "dataset/train". reflexivity.
    - exists "dataset/val". reflexivity. }
  destruct Hcfg as (_ & [dir Hargs] & Hstart0).
  assert (Hshuffle : shuffle (it_args it0) = true) by (rewrite Hargs; reflexivity).
  destruct (reachable_invariant it0 it Hperm Hshuffle Hstart0 Hreach)
    as (_ & Hargs' & Hsamples' & _).
  destruct (steps_per_pass_bounds (length (it_samples it0)) 32 Hn ltac:(lia))
    as (r & -> & Hlow & Hhigh).
  assert (Horder : Permutation (pass_order it (ambient 0%nat))
                     (seq 0 (length (it_samples it)))).
  { unfold pass_order. rewrite Hstart, Hargs', Hshuffle. cbn [Nat.eqb].
    apply Hperm. }
  destruct (pass_rest r it ambient) as (bl & it_end & Hb & Ha & Hend & Hlabels & Hcount).
  - rewrite Hargs', Hargs, Hsamples'. exact Hfiles.
  - exact Horder.
  - rewrite Hstart, Hargs', Hargs, Hsamples'. cbn [batch_size with_directory train_flow].
    lia.
  - rewrite Hstart, Hargs', Hargs, Hsamples'. cbn [batch_size with_directory train_flow].
    lia.
  - exists bl, it_end. split; [exact Hb|]. split; [exact Ha|].
    split; [exact (advance_reachable it0 _ _ _ _ Hreach Ha)|].
    split; [exact Hend|].
    rewrite Hstart in Hlabels, Hcount. cbn [Nat.mul] in Hlabels, Hcount.
    rewrite drop_0 in Hlabels. rewrite Nat.sub_0_r in Hcount.
    rewrite Hsamples' in Hlabels, Hcount. split; [|exact Hcount].
    rewrite Hlabels, <- label_at_seq.
    apply Permutation_map. rewrite Hsamples' in Horder. exact Horder.
Qed.
End LoaderPassCoverage.

Lemma load_data_empty_disk : load_data empty_disk = Ok (empty_train, empty_val).
Proof. vm_compute. reflexivity. Defined.

Lemma empty_directory_batches_witness :
  @batches ref_loader 3 (fun _ => 0%Z) empty_train
  = Ok [([], []); ([], []); ([], [])] /\
  @batches ref_loader 2 (fun _ => 0%Z) empty_val = Ok [([], []); ([], [])].
Proof.
  split.
  - apply (@empty_directory_batches ref_loader ref_permutation_law
             empty_disk empty_train empty_val empty_train);
      [exact load_data_empty_disk | left; reflexivity | reflexivity].
  - apply (@empty_directory_batches ref_loader ref_permutation_law
             empty_disk empty_train empty_val empty_val);
      [exact load_data_empty_disk | right; reflexivity | reflexivity].
Defined.

Lemma pass_covers_dataset_witness :
  exists (bl : list batch) (it_end : DirectoryIterator),
    @batches ref_loader 2 (fun _ => 0%Z) forty_train = Ok bl /\
    @advance ref_loader 2 (fun _ => 0%Z) forty_train = Ok it_end /\
    batch_index it_end = 0%nat /\
    Permutation (mjoin (map snd bl)) (map sample_label (it_samples forty_train)) /\
    length (mjoin (map fst bl)) = 40%nat.
Proof.
  destruct (@pass_covers_dataset ref_loader ref_permutation_law
              forty_disk forty_train forty_val forty_train
              load_data_forty_disk (or_introl eq_refl))
    with (it := forty_train) (ambient := fun _ : nat => 0%Z)
    as (bl & it_end & Hb & Ha & _ & Hend & Hlabels & Hcount).
  - apply List.Forall_forall. intros [f c] Hin. apply ref_load_img_ok.
    cbn [fst]. vm_compute in Hin.
    repeat (destruct Hin as [[= <- <-]|Hin]; [discriminate|]).
    contradiction.
  - vm_compute. lia.
  - apply reach_start.
  - reflexivity.
  - exists bl, it_end. repeat split; assumption.
Defined.
